(** * A model of [server.js]: the CareStack token cache and find-slot relay

    The development follows the source file top to bottom:

    - [Js]: the fragment of JavaScript values and conversions that the
      program applies to its inputs (truthiness, [||], [Number], template
      strings, [String(err)], [encodeURIComponent], [URLSearchParams]);
    - [Host]: what the process sees of the outside world (environment
      variables, the clock behind [Date.now()], the network behind
      [fetchFn]);
    - a state-and-exception monad [Async] in which [await] is sequencing and
      [throw] / a rejected promise is the exceptional result;
    - [getAccessToken], the [/api/token] handler and the [/api/find-slot]
      handler, written statement by statement after the source (the
      [/health] handler touches neither the cache nor the network and is
      left out);
    - the vocabulary of the properties and sample hosts to run the program
      on;
    - the properties of the specification, one theorem per claim, and each
      theorem at a concrete input.

    One request is run to completion at a time: the interleaving of several
    requests at their [await] points is outside this model.  JavaScript
    numbers are modelled by the integers together with [NaN]: the program
    only adds and compares millisecond timestamps, which are integral, and
    the theorems that state a sum ask for it to be in the range where
    doubles are exact.  The handlers are followed up to their calls on
    [res]; what Express then writes to the caller is not part of the
    source. *)

From Stdlib Require Import ZArith String Ascii List Bool Lia DecimalString.
From stdpp Require Import base option strings gmap.

Set Warnings "-register-all".
Local Open Scope string_scope.
Local Open Scope Z_scope.
Local Open Scope list_scope.

(** ** JavaScript values *)

Module Js.

(** Numbers: integral values and [NaN], with exact arithmetic.  The
    doubles of the program agree with it on integers of absolute value at
    most 2^53 whose sums and products stay in that range (timestamps in
    milliseconds and lifetimes in seconds do); fractions and infinities
    have no counterpart here. *)
Inductive number : Type :=
| Num (z : Z)
| NaN.

Definition add (a b : number) : number :=
  match a, b with
  | Num x, Num y => Num (x + y)
  | _, _ => NaN
  end.

Definition sub (a b : number) : number :=
  match a, b with
  | Num x, Num y => Num (x - y)
  | _, _ => NaN
  end.

Definition mul (a b : number) : number :=
  match a, b with
  | Num x, Num y => Num (x * y)
  | _, _ => NaN
  end.

(** [a < b]: false as soon as one side is [NaN]. *)
Definition lt (a b : number) : bool :=
  match a, b with
  | Num x, Num y => x <? y
  | _, _ => false
  end.

(** What [JSON.parse], [req.query] and the token cache can hold, plus
    [undefined] for a property that is not there.  An object keeps its
    properties in order; after [JSON.parse] the names are distinct. *)
Inductive value : Type :=
| VUndefined
| VNull
| VBool (b : bool)
| VNumber (n : number)
| VString (s : string)
| VArray (items : list value)
| VObject (props : list (string * value)).

(** ToBoolean: [undefined], [null], [false], [0], [NaN] and [''] are falsy. *)
Definition truthy (v : value) : bool :=
  match v with
  | VUndefined | VNull => false
  | VBool b => b
  | VNumber (Num z) => negb (z =? 0)
  | VNumber NaN => false
  | VString s => negb (String.eqb s "")
  | VArray _ | VObject _ => true
  end.

(** [a || b] on values. *)
Definition or_else (a b : value) : value :=
  if truthy a then a else b.

(** [e || d] where [e] is a string or is missing (an environment variable
    that is not set, a header that [headers.get] does not find) and [d] a
    string literal. *)
Definition or_default (e : option string) (d : string) : string :=
  match e with
  | Some s => if String.eqb s "" then d else s
  | None => d
  end.

(** [!s] on a string. *)
Definition is_empty (s : string) : bool := String.eqb s "".

(** Errors that are thrown: an [Error] object with its [name] and
    [message]. *)
Record error : Type := mkError { err_name : string; err_message : string }.

(** [new Error(msg)] *)
Definition Error (msg : string) : error := mkError "Error" msg.

(** [String(err)], that is [Error.prototype.toString]. *)
Definition String_of_error (e : error) : string :=
  if String.eqb (err_name e) "" then err_message e
  else if String.eqb (err_message e) "" then err_name e
  else err_name e +:+ ": " +:+ err_message e.

(** Decimal notation of an integer, as a template string prints the
    status code. *)
Definition decimal (z : Z) : string := NilZero.string_of_int (Z.to_int z).

(** The two conversions of the language that are left to the engine: the
    reading of a string as a number and the printing of a number. *)
Class Engine : Type := {
  StringToNumber : string -> number;
  NumberToString : number -> string;
}.

Section Conversions.
Context {engine : Engine}.

Definition join_with (sep : string) (parts : list string) : string :=
  match parts with
  | [] => ""
  | p :: ps => fold_left (fun acc q => acc +:+ sep +:+ q) ps p
  end.

(** ToString, as a template string [`${v}`] applies it, for the values on
    which it returns.  An array prints its elements separated by commas,
    [null] and [undefined] elements as the empty string; a plain object
    prints as [[object Object]].  The conversion of an object goes through
    its [toString]: on a JSON object with a property of its own by that
    name the program throws a [TypeError], which is not modelled; the
    theorems that need the conversion of a token or a lifetime to return
    ask for a primitive value. *)
Fixpoint to_string (v : value) : string :=
  match v with
  | VUndefined => "undefined"
  | VNull => "null"
  | VBool true => "true"
  | VBool false => "false"
  | VNumber n => NumberToString n
  | VString s => s
  | VArray items =>
      join_with ","
        (List.map (fun x => match x with
                            | VUndefined | VNull => ""
                            | _ => to_string x
                            end) items)
  | VObject _ => "[object Object]"
  end.

(** [Number(v)], for the values on which it returns (see [to_string] for
    arrays and objects). *)
Definition to_number (v : value) : number :=
  match v with
  | VUndefined => NaN
  | VNull => Num 0
  | VBool true => Num 1
  | VBool false => Num 0
  | VNumber n => n
  | VString s => StringToNumber s
  | VArray _ | VObject _ => StringToNumber (to_string v)
  end.
End Conversions.

(** [v.name] for a property name that is neither an index nor inherited
    ([access_token], [expires_in]): a [TypeError] on [null] and
    [undefined], the own property of an object, [undefined] otherwise. *)
Fixpoint lookup_prop (name : string) (props : list (string * value)) : value :=
  match props with
  | [] => VUndefined
  | (k, v) :: rest => if String.eqb k name then v else lookup_prop name rest
  end.

Definition get (v : value) (name : string) : error + value :=
  match v with
  | VUndefined =>
      inl (mkError "TypeError"
             ("Cannot read properties of undefined (reading '" +:+ name +:+ "')"))
  | VNull =>
      inl (mkError "TypeError"
             ("Cannot read properties of null (reading '" +:+ name +:+ "')"))
  | VObject props => inr (lookup_prop name props)
  | _ => inr VUndefined
  end.

(** Percent-encoding.  Strings are sequences of UTF-8 bytes, so a
    character outside the kept set is written [%XX] byte by byte. *)
Definition hex_digit (n : N) : ascii :=
  ascii_of_N (if (n <? 10)%N then 48 + n else 55 + n)%N.

Definition percent (c : ascii) : string :=
  let n := N_of_ascii c in
  String "%" (String (hex_digit (n / 16)) (String (hex_digit (n mod 16)) EmptyString)).

Definition is_alnum (c : ascii) : bool :=
  let n := N_of_ascii c in
  ((48 <=? n) && (n <=? 57) || (65 <=? n) && (n <=? 90) || (97 <=? n) && (n <=? 122))%N.

Definition one_of (set : string) (c : ascii) : bool :=
  existsb (Ascii.eqb c) (list_ascii_of_string set).

Fixpoint encode_with (keep : ascii -> bool) (special : ascii -> option string)
    (s : string) : string :=
  match s with
  | EmptyString => EmptyString
  | String c rest =>
      (match special c with
       | Some r => r
       | None => if keep c then String c EmptyString else percent c
       end) +:+ encode_with keep special rest
  end.

(** [encodeURIComponent(s)]: letters, digits and [- _ . ! ~ * ' ( )] are
    kept. *)
Definition encodeURIComponent (s : string) : string :=
  encode_with (fun c => is_alnum c || one_of "-_.!~*'()" c) (fun _ => None) s.

(** The serializer of [URLSearchParams]: letters, digits and [* - . _]
    are kept and a space becomes [+]. *)
Definition form_encode (s : string) : string :=
  encode_with (fun c => is_alnum c || one_of "*-._" c)
    (fun c => if Ascii.eqb c " " then Some "+" else None) s.

(** [URLSearchParams]: an ordered list of pairs; [set] replaces the value
    of a name that is there and appends otherwise. *)
Definition URLSearchParams : Type := list (string * string).

Fixpoint params_set (name val : string) (p : URLSearchParams) : URLSearchParams :=
  match p with
  | [] => [(name, val)]
  | (k, v) :: rest =>
      if String.eqb k name then (k, val) :: List.filter (fun kv => negb (String.eqb (fst kv) name)) rest
      else (k, v) :: params_set name val rest
  end.

Definition params_toString (p : URLSearchParams) : string :=
  join_with "&" (List.map (fun kv => form_encode (fst kv) +:+ "=" +:+ form_encode (snd kv)) p).

End Js.

Import Js.

(** ** The outside world *)

(** The second argument of [fetchFn(url, init)] together with the URL. *)
Record request : Type := {
  url : string;
  method : string;
  headers : list (string * string);
  body : option string;
}.

(** What the program reads of a [Response]: [status], [statusText],
    [headers.get(name)] ([None] for [null]) and the outcome of the two body
    readers [text()] and [json()], each of which resolves or rejects. *)
Record response : Type := {
  status : Z;
  statusText : string;
  headers_get : string -> option string;
  text : error + string;
  json : error + value;
}.

(** [resp.ok]: the status is in the range 200-299. *)
Definition ok (r : response) : bool := (200 <=? status r) && (status r <=? 299).

(** The promise returned by [fetchFn] resolves with a response, whatever
    its status, or rejects (the transport failed). *)
Inductive fetched : Type :=
| Resolved (r : response)
| Rejected (e : error).

(** The environment of the process: [process.env], the clock read by
    [Date.now()] (its n-th reading, in epoch milliseconds) and the network
    (the answer to a request, given the requests sent before it). *)
Record Host : Type := {
  env : gmap string string;
  clock : nat -> Z;
  network : list request -> request -> fetched;
}.

(** ** The state of the process *)

(** [tokenCache] *)
Record TokenCache : Type := {
  access_token : value;
  expires_at : number;
}.

(** What is written to the console. *)
Inductive logged : Type :=
| LogResp (r : response)
| LogToken (token : value)
| LogProxyError (e : error).

(** The module-level [tokenCache], the number of clock readings made, the
    requests sent through [fetchFn] (oldest first) and the console. *)
Record State : Type := {
  tokenCache : TokenCache;
  reads : nat;
  sent : list request;
  console : list logged;
}.

(** The state when the module has been loaded:
    [let tokenCache = { access_token: null, expires_at: 0 }]. *)
Definition empty_cache : TokenCache :=
  {| access_token := VNull; expires_at := Num 0 |}.

Definition initial : State :=
  {| tokenCache := empty_cache; reads := 0%nat; sent := []; console := [] |}.

(** ** Asynchronous computations

    An [async] function either returns or throws, and changes the state on
    the way; [await] of a rejected promise throws. *)

Inductive outcome (A : Type) : Type :=
| Return (a : A)
| Throw (e : error).
Arguments Return {A} a.
Arguments Throw {A} e.

Definition Async (A : Type) : Type := State -> outcome A * State.

#[export] Instance Async_ret : MRet Async := fun A a s => (Return a, s).

#[export] Instance Async_bind : MBind Async := fun A B k m s =>
  match m s with
  | (Return a, s') => k a s'
  | (Throw e, s') => (Throw e, s')
  end.

Definition throw {A : Type} (e : error) : Async A := fun s => (Throw e, s).

(** [try { m } catch (e) { h e }] *)
Definition try_catch {A : Type} (m : Async A) (h : error -> Async A) : Async A :=
  fun s =>
    match m s with
    | (Return a, s') => (Return a, s')
    | (Throw e, s') => h e s'
    end.

(** [await p] for a promise that has settled with [p]. *)
Definition await {A : Type} (p : error + A) : Async A :=
  match p with
  | inr a => mret a
  | inl e => throw e
  end.

(** Updates of one component of the state. *)
Definition tick (s : State) : State :=
  {| tokenCache := tokenCache s; reads := S (reads s); sent := sent s; console := console s |}.

Definition sending (r : request) (s : State) : State :=
  {| tokenCache := tokenCache s; reads := reads s; sent := sent s ++ [r]; console := console s |}.

Definition logging (l : logged) (s : State) : State :=
  {| tokenCache := tokenCache s; reads := reads s; sent := sent s; console := console s ++ [l] |}.

Definition caching (c : TokenCache) (s : State) : State :=
  {| tokenCache := c; reads := reads s; sent := sent s; console := console s |}.

Definition read_cache : Async TokenCache := fun s => (Return (tokenCache s), s).

(** [tokenCache.access_token = v] *)
Definition set_access_token (v : value) : Async unit := fun s =>
  (Return tt,
   caching {| access_token := v; expires_at := expires_at (tokenCache s) |} s).

(** [tokenCache.expires_at = n] *)
Definition set_expires_at (n : number) : Async unit := fun s =>
  (Return tt,
   caching {| access_token := access_token (tokenCache s); expires_at := n |} s).

(** [console.log(...)], [console.error(...)] *)
Definition console_log (l : logged) : Async unit := fun s => (Return tt, logging l s).

Section Program.
Context {engine : Engine} (host : Host).

(** [Date.now()] *)
Definition Date_now : Async Z := fun s => (Return (clock host (reads s)), tick s).

(** [await fetchFn(url, init)]: the request is recorded as sent and the
    network answers. *)
Definition fetchFn (r : request) : Async response := fun s =>
  match network host (sent s) r with
  | Resolved resp => (Return resp, sending r s)
  | Rejected e => (Throw e, sending r s)
  end.

(** [process.env.NAME] *)
Definition process_env (name : string) : option string := env host !! name.

Definition tokenUrl : string :=
  or_default (process_env "CS_TOKEN_URL") "https://id.carestack.ie/connect/token".
Definition client_id : string :=
  or_default (process_env "CS_CLIENT_ID") "dentaltech_api_client".
Definition client_secret : string := or_default (process_env "CS_CLIENT_SECRET") "".
Definition username : string := or_default (process_env "CS_USERNAME") "".
Definition password : string := or_default (process_env "CS_PASSWORD") "".

Definition missing_credentials : error :=
  Error "Missing token credentials. Please set CS_CLIENT_ID, CS_CLIENT_SECRET, CS_USERNAME, CS_PASSWORD".

(** The request of lines 50-63. *)
Definition token_request : request :=
  let body :=
    params_set "password" password
      (params_set "username" username
         (params_set "client_secret" client_secret
            (params_set "client_id" client_id
               (params_set "grant_type" "password" [])))) in
  {| url := tokenUrl;
     method := "POST";
     headers := [("Content-Type", "application/x-www-form-urlencoded")];
     body := Some (params_toString body) |}.

(** The error of lines 67-68. *)
Definition token_request_failed (resp : response) : error :=
  let text := match text resp with inr t => t | inl _ => "" end in
  Error ("Token request failed: " +:+ decimal (status resp) +:+ " "
         +:+ statusText resp +:+ " " +:+ text).

(** The test of line 36 on a cache at time [now]. *)
Definition fresh (cache : TokenCache) (now : Z) : bool :=
  truthy (access_token cache)
  && lt (Num now) (sub (expires_at cache) (Num 60000)).

(** [async function getAccessToken()] *)
Definition getAccessToken : Async value :=
  now ← Date_now;
  cache ← read_cache;
  if fresh cache now then mret (access_token cache)
  else
    if is_empty client_id || is_empty client_secret
       || is_empty username || is_empty password
    then throw missing_credentials
    else
      resp ← fetchFn token_request;
      console_log (LogResp resp);;
      if negb (ok resp) then throw (token_request_failed resp)
      else
        json ← await (json resp);
        field ← await (get json "expires_in");
        let expires_in := to_number (or_else field (VNumber (Num 300))) in
        token ← await (get json "access_token");
        set_access_token token;;
        t ← Date_now;
        set_expires_at (add (Num t) (mul expires_in (Num 1000)));;
        cache ← read_cache;
        mret (access_token cache).

(** *** Express responses *)

Inductive payload : Type :=
| Json (v : value)     (* [res.json(v)] *)
| Text (s : string).   (* [res.send(s)] *)

(** What a handler has asked of [res]: the status code, the headers it
    set itself, and what it handed over to be sent.  What Express makes of
    it on the wire is the library's part. *)
Record ExpressRes : Type := {
  statusCode : Z;
  res_headers : list (string * string);
  sent_body : option payload;
}.

(** [res] as a handler receives it. *)
Definition res0 : ExpressRes :=
  {| statusCode := 200; res_headers := []; sent_body := None |}.

Definition res_status (res : ExpressRes) (code : Z) : ExpressRes :=
  {| statusCode := code; res_headers := res_headers res; sent_body := sent_body res |}.

Definition res_setHeader (res : ExpressRes) (name val : string) : ExpressRes :=
  {| statusCode := statusCode res;
     res_headers := params_set name val (res_headers res);
     sent_body := sent_body res |}.

Definition res_json (res : ExpressRes) (v : value) : ExpressRes :=
  {| statusCode := statusCode res; res_headers := res_headers res;
     sent_body := Some (Json v) |}.

Definition res_send (res : ExpressRes) (s : string) : ExpressRes :=
  {| statusCode := statusCode res; res_headers := res_headers res;
     sent_body := Some (Text s) |}.

(** [app.get('/api/token', ...)] *)
Definition api_token (res : ExpressRes) : Async ExpressRes :=
  try_catch
    (token ← getAccessToken;
     cache ← read_cache;
     mret (res_json res
             (VObject [("access_token", token);
                       ("expires_at", VNumber (expires_at cache))])))
    (fun e =>
       mret (res_json (res_status res 500)
               (VObject [("error", VString (String_of_error e))]))).

(** [req.query.name] *)
Definition query (q : gmap string value) (name : string) : value :=
  default VUndefined (q !! name).

Definition missing_params : value :=
  VObject [("error", VString "Missing required query params: fromDate, locationId, providerId, productionTypeId")].

(** The request of lines 99-108. *)
Definition find_slot_request (token fromDate locationId providerId productionTypeId : value)
    : request :=
  let base := "https://dentaltech.carestack.ie" in
  {| url := base +:+ "/scheduler/api/v1.0/appointments/find-slot?fromDate="
            +:+ encodeURIComponent (to_string fromDate)
            +:+ "&locationId=" +:+ encodeURIComponent (to_string locationId)
            +:+ "&providerId=" +:+ encodeURIComponent (to_string providerId)
            +:+ "&productionTypeId=" +:+ encodeURIComponent (to_string productionTypeId);
     method := "GET";
     headers := [("Authorization", "Bearer " +:+ to_string token);
                 ("Accept", "application/json")];
     body := None |}.

(** [app.get('/api/find-slot', ...)].  Nothing is done to [res] before
    the last statement that can throw, so the [catch] block finds it as
    it was passed in. *)
Definition api_find_slot (q : gmap string value) (res : ExpressRes) : Async ExpressRes :=
  try_catch
    (token ← getAccessToken;
     console_log (LogToken token);;
     let fromDate := query q "fromDate" in
     let locationId := query q "locationId" in
     let providerId := query q "providerId" in
     let productionTypeId := query q "productionTypeId" in
     if negb (truthy fromDate) || negb (truthy locationId)
        || negb (truthy providerId) || negb (truthy productionTypeId)
     then mret (res_json (res_status res 400) missing_params)
     else
       upstream ← fetchFn (find_slot_request token fromDate locationId providerId productionTypeId);
       text ← await (text upstream);
       let res := res_status res (status upstream) in
       let ct := or_default (headers_get upstream "content-type")
                   "application/json; charset=utf-8" in
       let res := res_setHeader res "content-type" ct in
       mret (res_send res text))
    (fun err =>
       console_log (LogProxyError err);;
       mret (res_json (res_status res 500)
               (VObject [("error", VString "Proxy failure");
                         ("detail", VString (String_of_error err))]))).

End Program.

(** *** The rest of the module *)

Section Startup.
Context (host : Host).

(** [const PORT = process.env.PORT || 3000]: the string of the
    environment when it is set and not empty, the number 3000 otherwise. *)
Definition PORT : value :=
  match process_env host "PORT" with
  | Some p => if String.eqb p "" then VNumber (Num 3000) else VString p
  | None => VNumber (Num 3000)
  end.

(** [Date.prototype.toISOString] is the engine's; the handler only passes
    its result on. *)
Variable toISOString : Z -> string.

(** [app.get('/health', ...)]: [new Date()] reads the clock. *)
Definition health (res : ExpressRes) : Async ExpressRes :=
  now ← Date_now host;
  mret (res_json res (VObject [("ok", VBool true);
                               ("time", VString (toISOString now))])).

End Startup.

(** ** The vocabulary of the properties *)

(** The four query parameters the handler requires. *)
Definition required : list string :=
  ["fromDate"; "locationId"; "providerId"; "productionTypeId"].

(** Every required parameter is there and truthy. *)
Definition all_present (q : gmap string value) : bool :=
  forallb (fun name => truthy (query q name)) required.


(** What can be asked of the process. *)
Inductive operation : Type :=
| CallGetAccessToken
| GetApiToken (res : ExpressRes)
| GetFindSlot (q : gmap string value) (res : ExpressRes).

(** What comes back: the result of the function, or the response of a
    handler. *)
Inductive reply : Type :=
| Returned (r : outcome value)
| Responded (r : outcome ExpressRes).

(** Two states are alike when they only differ in an expires_at next to an
    absent (falsy) access_token. *)
Definition alike (a b : State) : Prop :=
  access_token (tokenCache a) = access_token (tokenCache b)
  /\ (truthy (access_token (tokenCache a)) = true ->
      expires_at (tokenCache a) = expires_at (tokenCache b))
  /\ reads a = reads b /\ sent a = sent b /\ console a = console b.

Section Vocabulary.
Context {engine : Engine} (host : Host).

(** The test of line 46. *)
Definition credentials_missing : bool :=
  is_empty (client_id host) || is_empty (client_secret host)
  || is_empty (username host) || is_empty (password host).

(** [v.name], [undefined] where the read throws. *)
Definition prop (v : value) (name : string) : value :=
  match get v name with
  | inr x => x
  | inl _ => VUndefined
  end.

(** The lifetime in seconds that line 71 computes from the parsed body. *)
Definition lifetime (j : value) : number :=
  to_number (or_else (prop j "expires_in") (VNumber (Num 300))).

(** The cache that lines 72-73 leave, for a parsed body [j] and a clock
    that reads [t] on line 73. *)
Definition written (j : value) (t : Z) : TokenCache :=
  {| access_token := prop j "access_token";
     expires_at := add (Num t) (mul (lifetime j) (Num 1000)) |}.

(** The state after the token endpoint has answered [r]. *)
Definition answered (r : response) (s : State) : State :=
  logging (LogResp r) (sending (token_request host) (tick s)).

(** The seven ways a call can end, with the result and the final state of
    each. *)
Inductive token_run (s : State) : outcome value -> State -> Prop :=
| run_hit :
    fresh (tokenCache s) (clock host (reads s)) = true ->
    token_run s (Return (access_token (tokenCache s))) (tick s)
| run_unconfigured :
    fresh (tokenCache s) (clock host (reads s)) = false ->
    credentials_missing = true ->
    token_run s (Throw missing_credentials) (tick s)
| run_rejected e :
    fresh (tokenCache s) (clock host (reads s)) = false ->
    credentials_missing = false ->
    network host (sent s) (token_request host) = Rejected e ->
    token_run s (Throw e) (sending (token_request host) (tick s))
| run_refused r :
    fresh (tokenCache s) (clock host (reads s)) = false ->
    credentials_missing = false ->
    network host (sent s) (token_request host) = Resolved r ->
    ok r = false ->
    token_run s (Throw (token_request_failed r)) (answered r s)
| run_unparsable r e :
    fresh (tokenCache s) (clock host (reads s)) = false ->
    credentials_missing = false ->
    network host (sent s) (token_request host) = Resolved r ->
    ok r = true ->
    json r = inl e ->
    token_run s (Throw e) (answered r s)
| run_no_object r j e :
    fresh (tokenCache s) (clock host (reads s)) = false ->
    credentials_missing = false ->
    network host (sent s) (token_request host) = Resolved r ->
    ok r = true ->
    json r = inr j ->
    get j "expires_in" = inl e ->
    token_run s (Throw e) (answered r s)
| run_stored r j :
    fresh (tokenCache s) (clock host (reads s)) = false ->
    credentials_missing = false ->
    network host (sent s) (token_request host) = Resolved r ->
    ok r = true ->
    json r = inr j ->
    (exists v, get j "expires_in" = inr v) ->
    token_run s (Return (prop j "access_token"))
      (caching (written j (clock host (S (reads s)))) (tick (answered r s))).

(** The request sent upstream for the query [q] with the token [token]. *)
Definition upstream_request (token : value) (q : gmap string value) : request :=
  find_slot_request token (query q "fromDate") (query q "locationId")
    (query q "providerId") (query q "productionTypeId").

(** The reply of the [catch] block. *)
Definition proxy_failure (res : ExpressRes) (err : error) : ExpressRes :=
  res_json (res_status res 500)
    (VObject [("error", VString "Proxy failure");
              ("detail", VString (String_of_error err))]).

(** The reply of lines 110-115 to the upstream response [up] with body
    [body]. *)
Definition relayed (res : ExpressRes) (up : response) (body : string) : ExpressRes :=
  res_send
    (res_setHeader (res_status res (status up)) "content-type"
       (or_default (headers_get up "content-type") "application/json; charset=utf-8"))
    body.

(** The environment variable [name] is not set, or set to the empty
    string. *)
Definition unset (name : string) : bool :=
  match process_env host name with
  | None => true
  | Some v => String.eqb v ""
  end.

(** An operation on a state: what comes back and the state left. *)
Definition perform (o : operation) (s : State) : reply * State :=
  match o with
  | CallGetAccessToken =>
      let (r, s') := getAccessToken host s in (Returned r, s')
  | GetApiToken res =>
      let (r, s') := api_token host res s in (Responded r, s')
  | GetFindSlot q res =>
      let (r, s') := api_find_slot host q res s in (Responded r, s')
  end.

(** The state after a sequence of operations. *)
Definition run (ops : list operation) (s : State) : State :=
  fold_left (fun s o => snd (perform o s)) ops s.

(** A cache is empty, or both its fields come from one parsed answer. *)
Definition well_formed (c : TokenCache) : Prop :=
  c = empty_cache \/ exists j t, c = written j t.

End Vocabulary.

(** The number of occurrences of the character [c] in [s]. *)
Fixpoint count_char (c : ascii) (s : string) : nat :=
  match s with
  | EmptyString => 0%nat
  | String a rest => ((if Ascii.eqb a c then 1 else 0) + count_char c rest)%nat
  end.

(** What one character becomes under [encode_with]. *)
Definition encoded_char (keep : ascii -> bool) (special : ascii -> option string)
    (a : ascii) : string :=
  match special a with
  | Some r => r
  | None => if keep a then String a EmptyString else percent a
  end.

(** The value of the request header [name], when the request has it. *)
Definition request_header (r : request) (name : string) : option string :=
  snd <$> List.find (fun kv => String.eqb (fst kv) name) (headers r).

(** The values that [Number(v)] and a template string convert without
    calling anything of the value: [undefined], [null], booleans, numbers
    and strings.  On an array or an object the conversion goes through
    the [toString] of the value, and throws a [TypeError] when a JSON
    object has a property of its own by that name; [to_number] and
    [to_string] give what the conversion gives when it returns. *)
Definition primitive (v : value) : bool :=
  match v with
  | VArray _ | VObject _ => false
  | _ => true
  end.

(** The integers that a double holds exactly: a product or a sum of two
    of them that stays in this range is computed without rounding, as
    [mul] and [add] compute it. *)
Definition safe_integer (z : Z) : bool := Z.abs z <=? 2 ^ 53.

(** The state [s] when the clock has been read [n] times in all. *)
Definition at_reading (n : nat) (s : State) : State :=
  {| tokenCache := tokenCache s; reads := n; sent := sent s; console := console s |}.

(** *** The text of a body

    [upstream.text()] decodes the bytes of the body as UTF-8 (Encoding
    standard, UTF-8 decode): a leading byte-order mark is dropped and
    every ill-formed sequence becomes U+FFFD.  Strings are UTF-8 bytes
    here, so the text of a body is the body with its mark dropped and each
    ill-formed sequence replaced by the three bytes of U+FFFD. *)








(** ** Sample hosts, used to run the program on concrete inputs *)

Module Sample.

(** An engine that reads a string of decimal digits as the number it
    denotes, the empty string as [0] and other strings as [NaN], and
    prints integers in decimal. *)
Fixpoint digits (s : string) (acc : Z) : number :=
  match s with
  | EmptyString => Num acc
  | String c rest =>
      let n := Z.of_N (N_of_ascii c) in
      if (48 <=? n) && (n <=? 57) then digits rest (10 * acc + (n - 48)) else NaN
  end.

#[export] Instance engine : Engine := {|
  StringToNumber := fun s => digits s 0;
  NumberToString := fun n => match n with Num z => decimal z | NaN => "NaN" end;
|}.

Definition credentials : gmap string string :=
  {[ "CS_CLIENT_SECRET" := "s3cret"; "CS_USERNAME" := "front desk"; "CS_PASSWORD" := "p@ss" ]}.

(** A response with the given status and JSON body; [raw] is the body as
    text. *)
Definition json_response (code : Z) (reason raw : string) (content_type : option string)
    (parsed : value) : response :=
  {| status := code; statusText := reason;
     headers_get := fun name => if String.eqb name "content-type" then content_type else None;
     text := inr raw; json := inr parsed |}.

(** A network whose token endpoint answers [token_resp] and whose other
    endpoints answer [upstream]. *)
Definition net (token_resp upstream : fetched) : list request -> request -> fetched :=
  fun _ r =>
    if String.eqb (url r) "https://id.carestack.ie/connect/token" then token_resp else upstream.

(** A double quote, and the body [{ slots: [] }] as JSON text. *)
Definition dq : string := String (ascii_of_nat 34) EmptyString.
Definition slots_text : string := "{" +:+ dq +:+ "slots" +:+ dq +:+ ":[]}".

Definition slots : fetched :=
  Resolved (json_response 200 "OK" slots_text (Some "application/json")
              (VObject [("slots", VArray [])])).

Definition host (vars : gmap string string) (token_resp upstream : fetched) : Host :=
  {| env := vars;
     clock := fun n => 1700000000000 + 1000 * Z.of_nat n;
     network := net token_resp upstream |}.

(** The token endpoint grants [tok] for [ttl]. *)
Definition grant (tok ttl : value) : fetched :=
  Resolved (json_response 200 "OK" "" (Some "application/json")
              (VObject [("access_token", tok); ("expires_in", ttl)])).

Definition good : Host := host credentials (grant (VString "abc") (VNumber (Num 3600))) slots.

(** The token endpoint grants the empty string as a token. *)
Definition blank : Host := host credentials (grant (VString "") (VNumber (Num 3600))) slots.

(** The token endpoint grants a token with [expires_in: 0]. *)
Definition zero : Host := host credentials (grant (VString "abc") (VNumber (Num 0))) slots.

(** The token endpoint answers [{ access_token: 'abc' }]. *)
Definition no_lifetime : fetched :=
  Resolved (json_response 200 "OK" "" (Some "application/json")
              (VObject [("access_token", VString "abc")])).
Definition plain : Host := host credentials no_lifetime slots.

(** The token endpoint answers [{}]. *)
Definition no_token : fetched :=
  Resolved (json_response 200 "OK" "{}" (Some "application/json") (VObject [])).
Definition hollow : Host := host credentials no_token slots.

(** The token endpoint answers 401 with a body that is not JSON. *)
Definition unauthorized : response :=
  {| status := 401; statusText := "Unauthorized";
     headers_get := fun _ => None;
     text := inr "invalid_client";
     json := inl (mkError "SyntaxError" "Unexpected token i in JSON at position 0") |}.
Definition denied : Host := host credentials (Resolved unauthorized) slots.

(** No credentials in the environment. *)
Definition unconfigured : Host := host ∅ (grant (VString "abc") (VNumber (Num 3600))) slots.


(** The state after a first call of [getAccessToken]. *)
Definition warmed (h : Host) : State := snd (getAccessToken h initial).

Definition all_params : gmap string value :=
  {[ "fromDate" := VString "2024-01-05"; "locationId" := VString "7";
     "providerId" := VString "12"; "productionTypeId" := VString "3" ]}.

(** A query without [providerId]. *)
Definition no_provider : gmap string value := delete "providerId" all_params.

End Sample.

Existing Instance Sample.engine.

(** More hosts and states: failures of the upstream, odd answers of the
    token endpoint, a cache about to expire. *)
Module Scenario.


(** The token endpoint grants a token for 30 seconds. *)
Definition brief : Host :=
  Sample.host Sample.credentials (Sample.grant (VString "abc") (VNumber (Num 30))) Sample.slots.


(** The token endpoint answers 200 with the JSON text [null]. *)
Definition null_answer : response :=
  Sample.json_response 200 "OK" "null" (Some "application/json") VNull.
Definition void : Host := Sample.host Sample.credentials (Resolved null_answer) Sample.slots.

(** A cached token, 50 seconds before its expiry when the clock is read
    for the first time. *)
Definition expiring : State :=
  {| tokenCache := {| access_token := VString "old"; expires_at := Num 1700000050000 |};
     reads := 0%nat; sent := []; console := [] |}.

(** Credentials with characters that have a meaning in a form body. *)
Definition tricky : Host :=
  Sample.host
    {[ "CS_CLIENT_SECRET" := "a&b=c"; "CS_USERNAME" := "u ser"; "CS_PASSWORD" := "p&grant_type=x" ]}
    (Sample.grant (VString "abc") (VNumber (Num 3600))) Sample.slots.

(** The token endpoint answers [{ expires_in: -100 }]: no token, and a
    lifetime below zero. *)
Definition overdue : response :=
  Sample.json_response 200 "OK" "" (Some "application/json")
    (VObject [("expires_in", VNumber (Num (-100)))]).
Definition stale : Host := Sample.host Sample.credentials (Resolved overdue) Sample.slots.



End Scenario.

(** ** The program on sample inputs *)

Example encodeURIComponent_date :
  encodeURIComponent "2024-01-05T10:00 a/b" = "2024-01-05T10%3A00%20a%2Fb".
Proof. reflexivity. Qed.

Example form_encode_secret : form_encode "p@ss w0rd" = "p%40ss+w0rd".
Proof. reflexivity. Qed.

Example decimal_401 : decimal 401 = "401".
Proof. reflexivity. Qed.

Example good_token :
  fst (getAccessToken Sample.good initial) = Return (VString "abc").
Proof. vm_compute. reflexivity. Qed.

Example good_cache :
  tokenCache (snd (getAccessToken Sample.good initial))
  = {| access_token := VString "abc"; expires_at := Num 1700003601000 |}.
Proof. vm_compute. reflexivity. Qed.

Example good_token_request :
  sent (snd (getAccessToken Sample.good initial))
  = [ {| url := "https://id.carestack.ie/connect/token";
         method := "POST";
         headers := [("Content-Type", "application/x-www-form-urlencoded")];
         body := Some "grant_type=password&client_id=dentaltech_api_client&client_secret=s3cret&username=front+desk&password=p%40ss" |} ].
Proof. vm_compute. reflexivity. Qed.

Example good_find_slot :
  fst (api_find_slot Sample.good Sample.all_params res0 initial)
  = Return {| statusCode := 200;
              res_headers := [("content-type", "application/json")];
              sent_body := Some (Text Sample.slots_text) |}.
Proof. vm_compute. reflexivity. Qed.

(** ** How a call of [getAccessToken] ends *)

Section TokenRuns.
Context {engine : Engine} (host : Host).

Lemma get_total (j : value) (a b : string) (v : value) :
  get j a = inr v -> get j b = inr (prop j b).
Proof.
  unfold prop. destruct j; simpl; intros H; try discriminate H; reflexivity.
Qed.

Lemma getAccessToken_run (s : State) :
  token_run host s (fst (getAccessToken host s)) (snd (getAccessToken host s)).
Proof.
  unfold getAccessToken, mbind, Async_bind, Date_now, read_cache. simpl.
  destruct (fresh (tokenCache s) (clock host (reads s))) eqn:Hfresh.
  { simpl. now apply run_hit. }
  fold (credentials_missing host).
  destruct (credentials_missing host) eqn:Hcred.
  { simpl. now apply run_unconfigured. }
  unfold fetchFn. simpl.
  destruct (network host (sent s) (token_request host)) as [r|e] eqn:Hnet.
  2:{ simpl. now apply run_rejected. }
  simpl.
  destruct (ok r) eqn:Hok; simpl.
  2:{ now apply run_refused. }
  destruct (json r) as [e|j] eqn:Hjson; simpl.
  { now apply run_unparsable. }
  destruct (get j "expires_in") as [e|v] eqn:Hget; simpl.
  { now apply (run_no_object host s r j e). }
  rewrite (get_total j "expires_in" "access_token" v Hget). simpl.
  replace (to_number (or_else v (VNumber (Num 300)))) with (lifetime j)
    by (unfold lifetime, prop; now rewrite Hget).
  apply (run_stored host s r j); eauto.
Qed.


End TokenRuns.

Section TokenFacts.
Context {engine : Engine} (host : Host).

(** Each way of ending is the way the call ends. *)
Lemma token_run_inv (s : State) (r : outcome value) (s' : State) :
  token_run host s r s' -> getAccessToken host s = (r, s').
Proof.
  intros Hrun.
  unfold getAccessToken, mbind, Async_bind, Date_now, read_cache.
  fold (credentials_missing host).
  destruct Hrun as [Hf | Hf Hc | e Hf Hc Hn | r Hf Hc Hn Ho | r e Hf Hc Hn Ho Hj
                   | r j e Hf Hc Hn Ho Hj Hg | r j Hf Hc Hn Ho Hj [v Hg]];
    cbn -[token_request]; rewrite Hf; [reflexivity | rewrite Hc; try reflexivity ..];
    unfold fetchFn; cbn -[token_request]; rewrite Hn; try reflexivity;
    cbn -[token_request]; rewrite Ho; try reflexivity;
    cbn -[token_request]; rewrite Hj; cbn -[token_request]; try reflexivity;
    rewrite Hg; try reflexivity.
  rewrite (get_total j "expires_in" "access_token" v Hg). cbn -[token_request].
  unfold written, lifetime, prop. now rewrite Hg.
Qed.

(** A call that throws has not touched the cache. *)
Lemma throw_keeps_cache (s : State) (e : error) (s' : State) :
  getAccessToken host s = (Throw e, s') -> tokenCache s' = tokenCache s.
Proof.
  intros Heq. pose proof (getAccessToken_run host s) as Hrun.
  rewrite Heq in Hrun. simpl in Hrun.
  inversion Hrun; subst; reflexivity.
Qed.

(** A call sends nothing, or the token request and nothing else. *)
Lemma token_call_sends (s : State) :
  sent (snd (getAccessToken host s)) = sent s
  \/ sent (snd (getAccessToken host s)) = sent s ++ [token_request host].
Proof.
  pose proof (getAccessToken_run host s) as Hrun.
  destruct (getAccessToken host s) as [r s']. simpl in *.
  inversion Hrun; subst; simpl; auto.
Qed.

(** A call changes the cache only by storing a parsed 2xx answer. *)
Lemma token_call_cache (s : State) :
  tokenCache (snd (getAccessToken host s)) = tokenCache s
  \/ exists r j,
       network host (sent s) (token_request host) = Resolved r
       /\ ok r = true /\ json r = inr j
       /\ fst (getAccessToken host s) = Return (prop j "access_token")
       /\ tokenCache (snd (getAccessToken host s)) = written j (clock host (S (reads s))).
Proof.
  pose proof (getAccessToken_run host s) as Hrun.
  destruct (getAccessToken host s) as [res s']. simpl in *.
  inversion Hrun; subst; simpl; auto.
  right. exists r, j. auto.
Qed.

End TokenFacts.

(** ** The credential cache *)

Section CredentialCache.
Context {engine : Engine} (host : Host).

(** C1, amended.  When the cached access_token is truthy (a non-empty
    string) and the clock reads strictly less than expires_at minus 60 000
    milliseconds, [getAccessToken] returns the cached token, sends nothing
    to the network and leaves the token cache as it was. *)
Theorem cache_hit (s : State) :
  truthy (access_token (tokenCache s)) = true ->
  lt (Num (clock host (reads s))) (sub (expires_at (tokenCache s)) (Num 60000)) = true ->
  fst (getAccessToken host s) = Return (access_token (tokenCache s))
  /\ sent (snd (getAccessToken host s)) = sent s
  /\ tokenCache (snd (getAccessToken host s)) = tokenCache s.
Proof.
  intros Htok Hlt.
  assert (Hfresh : fresh (tokenCache s) (clock host (reads s)) = true).
  { unfold fresh. now rewrite Htok, Hlt. }
  rewrite (token_run_inv host s _ _ (run_hit host s Hfresh)).
  simpl. auto.
Qed.

(** C3.  A call on the refresh path whose token request is answered with a
    status outside 200-299, or is not answered at all, throws, and the
    token cache is what it was before the call.  With the credentials
    configured the error thrown is the one the transport raised, or the
    [Token request failed] error made from the answer. *)
Theorem refresh_failure_keeps_cache (s : State) :
  fresh (tokenCache s) (clock host (reads s)) = false ->
  (exists e, network host (sent s) (token_request host) = Rejected e)
  \/ (exists r, network host (sent s) (token_request host) = Resolved r /\ ok r = false) ->
  (exists err, fst (getAccessToken host s) = Throw err)
  /\ tokenCache (snd (getAccessToken host s)) = tokenCache s
  /\ (credentials_missing host = false ->
      (forall e, network host (sent s) (token_request host) = Rejected e ->
                 fst (getAccessToken host s) = Throw e)
      /\ (forall r, network host (sent s) (token_request host) = Resolved r ->
                    ok r = false ->
                    fst (getAccessToken host s) = Throw (token_request_failed r))).
Proof.
  intros Hstale Hnet. split; [|split].
  - pose proof (getAccessToken_run host s) as Hrun.
    destruct (getAccessToken host s) as [res s']. simpl in *.
    inversion Hrun; subst; try (eexists; reflexivity).
    + congruence.
    + destruct Hnet as [[e He] | [r' [Hr' Hok]]]; congruence.
  - pose proof (getAccessToken_run host s) as Hrun.
    destruct (getAccessToken host s) as [res s']. simpl in *.
    inversion Hrun; subst; try reflexivity.
    destruct Hnet as [[e He] | [r' [Hr' Hok]]]; congruence.
  - intros Hcred. split.
    + intros e He.
      now rewrite (token_run_inv host s _ _ (run_rejected host s e Hstale Hcred He)).
    + intros r Hr Hok.
      now rewrite (token_run_inv host s _ _ (run_refused host s r Hstale Hcred Hr Hok)).
Qed.

(** C4, amended.  A call on the refresh path that receives a 2xx answer
    whose JSON body holds an integer expires_in [n] other than zero, with
    [n] times 1000 and the resulting timestamp in the range where doubles
    are exact, overwrites both fields of the cache: access_token becomes
    the access_token of the body, expires_at becomes the reading of the
    clock after the answer plus [n] times 1000 milliseconds; the call
    returns the new token. *)
Theorem refresh_success (s : State) (r : response) (j : value) (n : Z) :
  fresh (tokenCache s) (clock host (reads s)) = false ->
  credentials_missing host = false ->
  network host (sent s) (token_request host) = Resolved r ->
  ok r = true ->
  json r = inr j ->
  get j "expires_in" = inr (VNumber (Num n)) ->
  n <> 0 ->
  safe_integer (n * 1000) = true ->
  safe_integer (clock host (S (reads s))) = true ->
  safe_integer (clock host (S (reads s)) + n * 1000) = true ->
  fst (getAccessToken host s) = Return (prop j "access_token")
  /\ tokenCache (snd (getAccessToken host s))
     = {| access_token := prop j "access_token";
          expires_at := Num (clock host (S (reads s)) + n * 1000) |}.
Proof.
  intros Hstale Hcred Hnet Hok Hjson Hget Hn _ _ _.
  rewrite (token_run_inv host s _ _
             (run_stored host s r j Hstale Hcred Hnet Hok Hjson
                (ex_intro _ _ Hget))).
  simpl.
  assert (Hlife : lifetime j = Num n).
  { unfold lifetime, prop. rewrite Hget. unfold or_else. simpl.
    apply Z.eqb_neq in Hn. now rewrite Hn. }
  unfold written. rewrite Hlife.
  split; reflexivity.
Qed.

(** C5, amended.  A successful fetch whose JSON body has no expires_in
    records an expiry of the reading of the clock after the answer plus
    300 000 milliseconds, with the access_token of the body.  While the
    cache stays as the fetch left it and the token is truthy, a call made
    when the clock reads less than the fetch time plus 240 000
    milliseconds (the 300 seconds less the 60 second margin) returns the
    cached token and sends nothing; a later call sends the token request
    again. *)
Theorem default_lifetime (s : State) (r : response) (j : value) :
  fresh (tokenCache s) (clock host (reads s)) = false ->
  credentials_missing host = false ->
  network host (sent s) (token_request host) = Resolved r ->
  ok r = true ->
  json r = inr j ->
  get j "expires_in" = inr VUndefined ->
  tokenCache (snd (getAccessToken host s))
  = {| access_token := prop j "access_token";
       expires_at := Num (clock host (S (reads s)) + 300 * 1000) |}
  /\ forall s2 : State,
       tokenCache s2 = tokenCache (snd (getAccessToken host s)) ->
       truthy (prop j "access_token") = true ->
       (clock host (reads s2) < clock host (S (reads s)) + 240 * 1000 ->
        fst (getAccessToken host s2) = Return (prop j "access_token")
        /\ sent (snd (getAccessToken host s2)) = sent s2)
       /\ (clock host (S (reads s)) + 240 * 1000 <= clock host (reads s2) ->
           sent (snd (getAccessToken host s2)) = sent s2 ++ [token_request host]).
Proof.
  intros Hstale Hcred Hnet Hok Hjson Hget.
  rewrite (token_run_inv host s _ _
             (run_stored host s r j Hstale Hcred Hnet Hok Hjson
                (ex_intro _ _ Hget))).
  simpl.
  assert (Hw : written j (clock host (S (reads s)))
               = {| access_token := prop j "access_token";
                    expires_at := Num (clock host (S (reads s)) + 300 * 1000) |}).
  { unfold written, lifetime, prop at 2. now rewrite Hget. }
  rewrite Hw. split; [reflexivity|].
  intros s2 Hcache Htok.
  assert (Htest : fresh (tokenCache s2) (clock host (reads s2))
                  = (clock host (reads s2) <? clock host (S (reads s)) + 300 * 1000 - 60000)).
  { rewrite Hcache. unfold fresh. simpl. now rewrite Htok. }
  split.
  - intros Hsoon.
    assert (Hfresh : fresh (tokenCache s2) (clock host (reads s2)) = true).
    { rewrite Htest. apply Z.ltb_lt. lia. }
    rewrite (token_run_inv host s2 _ _ (run_hit host s2 Hfresh)).
    simpl. rewrite Hcache. split; reflexivity.
  - intros Hlate.
    assert (Hold : fresh (tokenCache s2) (clock host (reads s2)) = false).
    { rewrite Htest. apply Z.ltb_ge. lia. }
    pose proof (getAccessToken_run host s2) as Hrun.
    destruct (getAccessToken host s2) as [res s3]. simpl in *.
    inversion Hrun; subst; simpl; congruence.
Qed.

End CredentialCache.

(** ** How a [/api/find-slot] request ends *)


Section RelayRuns.
Context {engine : Engine} (host : Host).

Lemma validation_test (q : gmap string value) :
  negb (truthy (query q "fromDate")) || negb (truthy (query q "locationId"))
  || negb (truthy (query q "providerId")) || negb (truthy (query q "productionTypeId"))
  = negb (all_present q).
Proof.
  unfold all_present, required. simpl.
  destruct (truthy (query q "fromDate")), (truthy (query q "locationId")),
    (truthy (query q "providerId")), (truthy (query q "productionTypeId")); reflexivity.
Qed.

Ltac run_handler Htoken :=
  unfold api_find_slot, try_catch, mbind, Async_bind; rewrite Htoken;
  cbn -[find_slot_request query truthy].

Lemma find_slot_token_thrown (q : gmap string value) (res : ExpressRes)
    (s s1 : State) (e : error) :
  getAccessToken host s = (Throw e, s1) ->
  api_find_slot host q res s = (Return (proxy_failure res e), logging (LogProxyError e) s1).
Proof. intros Htoken. run_handler Htoken. reflexivity. Qed.

Lemma find_slot_bad_request (q : gmap string value) (res : ExpressRes)
    (s s1 : State) (token : value) :
  getAccessToken host s = (Return token, s1) ->
  all_present q = false ->
  api_find_slot host q res s
  = (Return (res_json (res_status res 400) missing_params), logging (LogToken token) s1).
Proof.
  intros Htoken Hq. run_handler Htoken.
  rewrite validation_test, Hq. reflexivity.
Qed.

Lemma find_slot_relayed (q : gmap string value) (res : ExpressRes)
    (s s1 : State) (token : value) (up : response) (body : string) :
  getAccessToken host s = (Return token, s1) ->
  all_present q = true ->
  network host (sent s1) (upstream_request token q) = Resolved up ->
  text up = inr body ->
  api_find_slot host q res s
  = (Return (relayed res up body),
     sending (upstream_request token q) (logging (LogToken token) s1)).
Proof.
  intros Htoken Hq Hnet Hbody. run_handler Htoken.
  rewrite validation_test, Hq. unfold fetchFn.
  cbn -[find_slot_request query truthy].
  fold (upstream_request token q). rewrite Hnet.
  cbn -[find_slot_request query truthy]. rewrite Hbody. reflexivity.
Qed.

Lemma find_slot_unreachable (q : gmap string value) (res : ExpressRes)
    (s s1 : State) (token : value) (e : error) :
  getAccessToken host s = (Return token, s1) ->
  all_present q = true ->
  network host (sent s1) (upstream_request token q) = Rejected e ->
  api_find_slot host q res s
  = (Return (proxy_failure res e),
     logging (LogProxyError e)
       (sending (upstream_request token q) (logging (LogToken token) s1))).
Proof.
  intros Htoken Hq Hnet. run_handler Htoken.
  rewrite validation_test, Hq. unfold fetchFn.
  cbn -[find_slot_request query truthy].
  fold (upstream_request token q). rewrite Hnet. reflexivity.
Qed.

Lemma find_slot_body_lost (q : gmap string value) (res : ExpressRes)
    (s s1 : State) (token : value) (up : response) (e : error) :
  getAccessToken host s = (Return token, s1) ->
  all_present q = true ->
  network host (sent s1) (upstream_request token q) = Resolved up ->
  text up = inl e ->
  api_find_slot host q res s
  = (Return (proxy_failure res e),
     logging (LogProxyError e)
       (sending (upstream_request token q) (logging (LogToken token) s1))).
Proof.
  intros Htoken Hq Hnet Hbody. run_handler Htoken.
  rewrite validation_test, Hq. unfold fetchFn.
  cbn -[find_slot_request query truthy].
  fold (upstream_request token q). rewrite Hnet.
  cbn -[find_slot_request query truthy]. rewrite Hbody. reflexivity.
Qed.

(** The handler never throws. *)
Lemma find_slot_responds (q : gmap string value) (res : ExpressRes) (s : State) :
  exists reply, fst (api_find_slot host q res s) = Return reply.
Proof.
  destruct (getAccessToken host s) as [[token|e] s1] eqn:Htoken.
  2:{ rewrite (find_slot_token_thrown q res s s1 e Htoken). eauto. }
  destruct (all_present q) eqn:Hq.
  2:{ rewrite (find_slot_bad_request q res s s1 token Htoken Hq). eauto. }
  destruct (network host (sent s1) (upstream_request token q)) as [up|e] eqn:Hnet.
  2:{ rewrite (find_slot_unreachable q res s s1 token e Htoken Hq Hnet). eauto. }
  destruct (text up) as [e|body] eqn:Hbody.
  - rewrite (find_slot_body_lost q res s s1 token up e Htoken Hq Hnet Hbody). eauto.
  - rewrite (find_slot_relayed q res s s1 token up body Htoken Hq Hnet Hbody). eauto.
Qed.

End RelayRuns.

(** ** Configuration *)

Section Configuration.
Context {engine : Engine} (host : Host).

Lemma is_empty_or_default (name : string) :
  is_empty (or_default (process_env host name) "") = unset host name.
Proof.
  unfold unset, or_default, is_empty.
  destruct (process_env host name) as [v|]; [|reflexivity].
  destruct (String.eqb v "") eqn:Hv; [reflexivity | exact Hv].
Qed.

Lemma or_default_nonempty (e : option string) (d : string) :
  is_empty d = false -> is_empty (or_default e d) = false.
Proof.
  unfold or_default, is_empty. intros Hd.
  destruct e as [v|]; [|exact Hd].
  destruct (String.eqb v "") eqn:Hv; [exact Hd | exact Hv].
Qed.

Lemma or_default_unset (name d : string) :
  unset host name = true -> or_default (process_env host name) d = d.
Proof.
  unfold unset, or_default.
  destruct (process_env host name) as [v|]; [|reflexivity].
  now intros ->.
Qed.

(** The test of line 46 only depends on the three variables without a
    default. *)
Lemma credentials_missing_unset :
  credentials_missing host
  = unset host "CS_CLIENT_SECRET" || unset host "CS_USERNAME" || unset host "CS_PASSWORD".
Proof.
  unfold credentials_missing, client_id, client_secret, username, password.
  rewrite !is_empty_or_default.
  now rewrite (or_default_nonempty _ "dentaltech_api_client" eq_refl).
Qed.

(** C8.  On the refresh path, when CS_CLIENT_SECRET, CS_USERNAME or
    CS_PASSWORD is unset or empty the call throws the configuration error,
    has sent nothing to the network and leaves the cache as it was.  When
    the three are set the token request is sent, whether CS_TOKEN_URL and
    CS_CLIENT_ID are set or not: unset, they stand for their defaults. *)
Theorem credentials_required (s : State) :
  fresh (tokenCache s) (clock host (reads s)) = false ->
  (unset host "CS_CLIENT_SECRET" || unset host "CS_USERNAME" || unset host "CS_PASSWORD" = true ->
   fst (getAccessToken host s) = Throw missing_credentials
   /\ sent (snd (getAccessToken host s)) = sent s
   /\ tokenCache (snd (getAccessToken host s)) = tokenCache s)
  /\ (unset host "CS_CLIENT_SECRET" || unset host "CS_USERNAME" || unset host "CS_PASSWORD" = false ->
      sent (snd (getAccessToken host s)) = sent s ++ [token_request host]
      /\ (unset host "CS_TOKEN_URL" = true ->
          url (token_request host) = "https://id.carestack.ie/connect/token")
      /\ (unset host "CS_CLIENT_ID" = true -> client_id host = "dentaltech_api_client")).
Proof.
  intros Hstale. rewrite <- credentials_missing_unset. split.
  - intros Hcred.
    rewrite (token_run_inv host s _ _ (run_unconfigured host s Hstale Hcred)).
    simpl. auto.
  - intros Hcred. split; [|split].
    + pose proof (getAccessToken_run host s) as Hrun.
      destruct (getAccessToken host s) as [res s']. simpl in *.
      inversion Hrun; subst; simpl; congruence.
    + intros Hurl. unfold token_request, tokenUrl. simpl.
      now apply or_default_unset.
    + intros Hid. unfold client_id. now apply or_default_unset.
Qed.

End Configuration.

(** ** The relay *)

Section Relay.
Context {engine : Engine} (host : Host).

(** C2, amended.  The handler calls [getAccessToken] before it looks at
    the query.  When that call returns and one of the four parameters is
    missing or empty, the handler responds with status 400 and the JSON
    error body, and sends no request after the call has returned: nothing
    goes to the scheduling endpoint. *)
Theorem find_slot_missing_parameter (q : gmap string value) (res : ExpressRes)
    (s s1 : State) (token : value) :
  getAccessToken host s = (Return token, s1) ->
  all_present q = false ->
  fst (api_find_slot host q res s)
  = Return {| statusCode := 400; res_headers := res_headers res;
              sent_body := Some (Json missing_params) |}
  /\ sent (snd (api_find_slot host q res s)) = sent s1.
Proof.
  intros Htoken Hq.
  rewrite (find_slot_bad_request host q res s s1 token Htoken Hq).
  split; reflexivity.
Qed.




(** C7.  When the token fetch fails, whatever the query, the handler
    responds with status 500 and the JSON payload
    [{ error: 'Proxy failure', detail }]; the only request that can have
    been sent is the token request, so nothing goes to the scheduling
    endpoint. *)
Theorem find_slot_token_failure (q : gmap string value) (res : ExpressRes)
    (s s1 : State) (e : error) :
  getAccessToken host s = (Throw e, s1) ->
  fst (api_find_slot host q res s)
  = Return {| statusCode := 500; res_headers := res_headers res;
              sent_body := Some (Json (VObject [("error", VString "Proxy failure");
                                                ("detail", VString (String_of_error e))])) |}
  /\ sent (snd (api_find_slot host q res s)) = sent s1
  /\ (sent s1 = sent s \/ sent s1 = sent s ++ [token_request host]).
Proof.
  intros Htoken.
  rewrite (find_slot_token_thrown host q res s s1 e Htoken).
  repeat split.
  pose proof (token_call_sends host s) as Hsent.
  now rewrite Htoken in Hsent.
Qed.

End Relay.

(** ** A token endpoint that grants no token *)

Section AbsentToken.
Context {engine : Engine} (host : Host).

(** With a token and the four parameters, one request goes upstream. *)
Lemma find_slot_sends (q : gmap string value) (res : ExpressRes)
    (s s1 : State) (token : value) :
  getAccessToken host s = (Return token, s1) ->
  all_present q = true ->
  sent (snd (api_find_slot host q res s)) = sent s1 ++ [upstream_request token q].
Proof.
  intros Htoken Hq.
  destruct (network host (sent s1) (upstream_request token q)) as [up|e] eqn:Hnet.
  2:{ now rewrite (find_slot_unreachable host q res s s1 token e Htoken Hq Hnet). }
  destruct (text up) as [e|body] eqn:Hbody.
  - now rewrite (find_slot_body_lost host q res s s1 token up e Htoken Hq Hnet Hbody).
  - now rewrite (find_slot_relayed host q res s s1 token up body Htoken Hq Hnet Hbody).
Qed.

(** A call that finds a falsy token in the cache, with the credentials
    configured, sends the token request, whatever the time. *)
Lemma absent_token_is_refetched (s : State) :
  truthy (access_token (tokenCache s)) = false ->
  credentials_missing host = false ->
  sent (snd (getAccessToken host s)) = sent s ++ [token_request host].
Proof.
  intros Htok Hcred.
  assert (Hstale : fresh (tokenCache s) (clock host (reads s)) = false).
  { unfold fresh. now rewrite Htok. }
  pose proof (getAccessToken_run host s) as Hrun.
  destruct (getAccessToken host s) as [res s']. simpl in *.
  inversion Hrun; subst; simpl; congruence.
Qed.

(** C10, amended.  When the 2xx JSON body is not null, has no
    access_token, and its expires_in is absent or falsy, or a positive
    integer (with the millisecond arithmetic in the range where doubles
    are exact), the call on the refresh path does not fail: it returns
    [undefined] and stores it as the cached token, with an expiry later
    than the clock reading: that reading plus 300 000 milliseconds when
    expires_in is falsy, plus expires_in times 1000 otherwise.  A next
    call on that cache sends the token request again, at whatever time;
    and a find-slot request with its four parameters that triggers this
    fetch sends upstream the header [Authorization: Bearer undefined]. *)
Theorem token_without_access_token (s : State) (r : response) (j : value) :
  fresh (tokenCache s) (clock host (reads s)) = false ->
  credentials_missing host = false ->
  network host (sent s) (token_request host) = Resolved r ->
  ok r = true ->
  json r = inr j ->
  get j "access_token" = inr VUndefined ->
  truthy (prop j "expires_in") = false
  \/ (exists n, prop j "expires_in" = VNumber (Num n)
                /\ 0 < n
                /\ safe_integer (n * 1000) = true
                /\ safe_integer (clock host (S (reads s))) = true
                /\ safe_integer (clock host (S (reads s)) + n * 1000) = true) ->
  fst (getAccessToken host s) = Return VUndefined
  /\ access_token (tokenCache (snd (getAccessToken host s))) = VUndefined
  /\ (exists d, 0 < d
                /\ expires_at (tokenCache (snd (getAccessToken host s)))
                   = Num (clock host (S (reads s)) + d))
  /\ (truthy (prop j "expires_in") = false ->
      expires_at (tokenCache (snd (getAccessToken host s)))
      = Num (clock host (S (reads s)) + 300000))
  /\ (forall n, prop j "expires_in" = VNumber (Num n) -> n <> 0 ->
      expires_at (tokenCache (snd (getAccessToken host s)))
      = Num (clock host (S (reads s)) + n * 1000))
  /\ (forall s2 : State,
        tokenCache s2 = tokenCache (snd (getAccessToken host s)) ->
        sent (snd (getAccessToken host s2)) = sent s2 ++ [token_request host])
  /\ (forall q res, all_present q = true ->
      exists upstream,
        sent (snd (api_find_slot host q res s))
        = sent s ++ [token_request host; upstream]
        /\ headers upstream
           = [("Authorization", "Bearer undefined"); ("Accept", "application/json")]).
Proof.
  intros Hstale Hcred Hnet Hok Hjson Hget Hlife.
  assert (Hexp : exists v, get j "expires_in" = inr v).
  { exists (prop j "expires_in"). exact (get_total j _ _ _ Hget). }
  pose proof (token_run_inv host s _ _
                (run_stored host s r j Hstale Hcred Hnet Hok Hjson Hexp)) as Hrun.
  assert (Hprop : prop j "access_token" = VUndefined).
  { unfold prop. now rewrite Hget. }
  rewrite Hprop in Hrun.
  assert (Hcache : tokenCache (snd (getAccessToken host s))
                   = {| access_token := VUndefined;
                        expires_at := add (Num (clock host (S (reads s))))
                                        (mul (lifetime j) (Num 1000)) |}).
  { rewrite Hrun. simpl. unfold written. now rewrite Hprop. }
  rewrite Hcache.
  assert (Hdefault : truthy (prop j "expires_in") = false ->
                     lifetime j = Num 300).
  { intros Hfalsy. unfold lifetime, or_else. now rewrite Hfalsy. }
  assert (Hgiven : forall n, prop j "expires_in" = VNumber (Num n) -> n <> 0 ->
                   lifetime j = Num n).
  { intros n Hn Hnz. unfold lifetime, or_else. rewrite Hn. simpl.
    apply Z.eqb_neq in Hnz. now rewrite Hnz. }
  split; [now rewrite Hrun|]. split; [reflexivity|]. split.
  { destruct Hlife as [Hfalsy | (n & Hn & Hpos & _)].
    - exists 300000. split; [lia|]. cbn [expires_at]. now rewrite (Hdefault Hfalsy).
    - exists (n * 1000). split; [lia|]. cbn [expires_at].
      rewrite (Hgiven n Hn) by lia. reflexivity. }
  split.
  { intros Hfalsy. cbn [expires_at]. now rewrite (Hdefault Hfalsy). }
  split.
  { intros n Hn Hnz. cbn [expires_at]. now rewrite (Hgiven n Hn Hnz). }
  split.
  { intros s2 Hs2. apply absent_token_is_refetched; [|exact Hcred].
    now rewrite Hs2. }
  intros q res Hq. exists (upstream_request VUndefined q).
  rewrite (find_slot_sends q res s _ VUndefined Hrun Hq).
  cbn [sent caching tick answered logging sending].
  rewrite <- app_assoc. split; reflexivity.
Qed.

End AbsentToken.

(** ** The life of the token cache *)

Lemma alike_refl (a : State) : alike a a.
Proof. unfold alike. auto. Qed.

Lemma alike_logging (l : logged) (a b : State) :
  alike a b -> alike (logging l a) (logging l b).
Proof. unfold alike. simpl. intros (? & ? & ? & ? & ->). auto. Qed.

Section Lifecycle.
Context {engine : Engine} (host : Host).

(** The [/api/token] handler keeps the state that [getAccessToken]
    leaves. *)
Lemma api_token_state (res : ExpressRes) (s : State) :
  snd (api_token host res s) = snd (getAccessToken host s).
Proof.
  unfold api_token, try_catch, mbind, Async_bind.
  destruct (getAccessToken host s) as [[token|e] s1]; reflexivity.
Qed.

(** The [/api/find-slot] handler keeps the cache that [getAccessToken]
    leaves. *)
Lemma find_slot_cache (q : gmap string value) (res : ExpressRes) (s : State) :
  tokenCache (snd (api_find_slot host q res s)) = tokenCache (snd (getAccessToken host s)).
Proof.
  destruct (getAccessToken host s) as [[token|e] s1] eqn:Htoken.
  2:{ now rewrite (find_slot_token_thrown host q res s s1 e Htoken). }
  destruct (all_present q) eqn:Hq.
  2:{ now rewrite (find_slot_bad_request host q res s s1 token Htoken Hq). }
  destruct (network host (sent s1) (upstream_request token q)) as [up|e] eqn:Hnet.
  2:{ now rewrite (find_slot_unreachable host q res s s1 token e Htoken Hq Hnet). }
  destruct (text up) as [e|body] eqn:Hbody.
  - now rewrite (find_slot_body_lost host q res s s1 token up e Htoken Hq Hnet Hbody).
  - now rewrite (find_slot_relayed host q res s s1 token up body Htoken Hq Hnet Hbody).
Qed.

Lemma perform_cache (o : operation) (s : State) :
  tokenCache (snd (perform host o s)) = tokenCache (snd (getAccessToken host s)).
Proof.
  destruct o as [|res|q res]; simpl.
  - now destruct (getAccessToken host s).
  - rewrite <- (api_token_state res s). now destruct (api_token host res s).
  - rewrite <- (find_slot_cache q res s). now destruct (api_find_slot host q res s).
Qed.

(** An operation changes the cache only by storing a parsed 2xx answer. *)
Lemma perform_stores (o : operation) (s : State) :
  tokenCache (snd (perform host o s)) = tokenCache s
  \/ exists r j,
       network host (sent s) (token_request host) = Resolved r
       /\ ok r = true /\ json r = inr j
       /\ tokenCache (snd (perform host o s)) = written j (clock host (S (reads s))).
Proof.
  rewrite perform_cache.
  destruct (token_call_cache host s) as [Hsame | (r & j & Hnet & Hok & Hjson & _ & Hcache)].
  - now left.
  - right. exists r, j. auto.
Qed.

Lemma run_well_formed (ops : list operation) (s : State) :
  well_formed (tokenCache s) -> well_formed (tokenCache (run host ops s)).
Proof.
  revert s. induction ops as [|o ops IH]; intros s Hs; simpl.
  - exact Hs.
  - apply IH.
    destruct (perform_stores o s) as [-> | (r & j & _ & _ & _ & ->)].
    + exact Hs.
    + right. eauto.
Qed.

(** On alike states [getAccessToken] does the same, or throws the same
    error without having touched either cache. *)
Lemma getAccessToken_alike (a b : State) :
  alike a b ->
  getAccessToken host a = getAccessToken host b
  \/ exists e sa,
       getAccessToken host a = (Throw e, sa)
       /\ getAccessToken host b = (Throw e, caching (tokenCache b) sa)
       /\ tokenCache sa = tokenCache a.
Proof.
  destruct a as [[ta ea] n l k], b as [[tb eb] n' l' k'].
  unfold alike. simpl. intros (<- & Hexp & <- & <- & <-).
  destruct (truthy ta) eqn:Htok.
  { left. now rewrite (Hexp eq_refl). }
  set (a := {| tokenCache := {| access_token := ta; expires_at := ea |};
               reads := n; sent := l; console := k |}).
  set (b := {| tokenCache := {| access_token := ta; expires_at := eb |};
               reads := n; sent := l; console := k |}).
  assert (Hb : fresh (tokenCache b) (clock host (reads b)) = false).
  { unfold fresh. simpl. now rewrite Htok. }
  pose proof (getAccessToken_run host a) as Hrun.
  destruct (getAccessToken host a) as [r sa]. simpl in Hrun.
  inversion Hrun as [Hf | Hf Hc | e Hf Hc Hn | r' Hf Hc Hn Ho | r' e Hf Hc Hn Ho Hj
                    | r' j e Hf Hc Hn Ho Hj Hg | r' j Hf Hc Hn Ho Hj Hg]; subst.
  - unfold fresh in Hf. simpl in Hf. rewrite Htok in Hf. discriminate Hf.
  - right. eexists _, _. split; [reflexivity|]. split; [|reflexivity].
    exact (token_run_inv host b _ _ (run_unconfigured host b Hb Hc)).
  - right. eexists _, _. split; [reflexivity|]. split; [|reflexivity].
    exact (token_run_inv host b _ _ (run_rejected host b e Hb Hc Hn)).
  - right. eexists _, _. split; [reflexivity|]. split; [|reflexivity].
    exact (token_run_inv host b _ _ (run_refused host b r' Hb Hc Hn Ho)).
  - right. eexists _, _. split; [reflexivity|]. split; [|reflexivity].
    exact (token_run_inv host b _ _ (run_unparsable host b r' e Hb Hc Hn Ho Hj)).
  - right. eexists _, _. split; [reflexivity|]. split; [|reflexivity].
    exact (token_run_inv host b _ _ (run_no_object host b r' j e Hb Hc Hn Ho Hj Hg)).
  - left. symmetry.
    exact (token_run_inv host b _ _ (run_stored host b r' j Hb Hc Hn Ho Hj Hg)).
Qed.

Lemma alike_caching (a : State) (c : TokenCache) :
  access_token c = access_token (tokenCache a) ->
  truthy (access_token c) = false ->
  alike a (caching c a).
Proof.
  unfold alike. simpl. intros Htok Hfalsy. rewrite Htok in *.
  repeat split; auto. intros Htrue. congruence.
Qed.

(** On alike states an operation replies the same and leaves alike
    states. *)
Lemma perform_alike (o : operation) (a b : State) :
  alike a b ->
  fst (perform host o a) = fst (perform host o b) /\ alike (snd (perform host o a)) (snd (perform host o b)).
Proof.
  intros Hab.
  assert (Htokens : access_token (tokenCache a) = access_token (tokenCache b))
    by apply Hab.
  destruct (truthy (access_token (tokenCache a))) eqn:Htok.
  { assert (a = b) as <-.
    { destruct a as [[ta ea] n l k], b as [[tb eb] n' l' k'].
      unfold alike in Hab. simpl in *.
      destruct Hab as (<- & Hexp & <- & <- & <-). now rewrite (Hexp Htok). }
    split; [reflexivity | apply alike_refl]. }
  destruct (getAccessToken_alike a b Hab) as [Heq | (e & sa & Ha & Hb & Hca)].
  - assert (Hperf : perform host o a = perform host o b).
    { destruct o as [|res|q res]; simpl;
        unfold api_token, api_find_slot, try_catch, mbind, Async_bind;
        now rewrite Heq. }
    rewrite Hperf. split; [reflexivity | apply alike_refl].
  - assert (Hsa : alike sa (caching (tokenCache b) sa)).
    { apply alike_caching; [rewrite Hca; congruence | now rewrite <- Htokens]. }
    destruct o as [|res|q res]; simpl.
    + rewrite Ha, Hb. simpl. auto.
    + unfold api_token, try_catch, mbind, Async_bind. rewrite Ha, Hb. simpl. auto.
    + rewrite (find_slot_token_thrown host q res a sa e Ha).
      rewrite (find_slot_token_thrown host q res b _ e Hb).
      split; [reflexivity | now apply alike_logging].
Qed.

End Lifecycle.

(** C9.  The token cache starts empty (token [null], expiry 0).  An
    operation ([getAccessToken], [/api/token], [/api/find-slot]) leaves it
    as it was or stores, both fields at once, what a 2xx answer of the
    token endpoint with a JSON body gave; so after any sequence of
    operations the cache is empty or holds two fields written together.
    The expiry means nothing without a token: on two states that only
    differ in the expires_at next to an absent access_token every
    operation replies the same and leaves two such states again. *)
Theorem token_state_lifecycle {engine : Engine} (host : Host) :
  tokenCache initial = {| access_token := VNull; expires_at := Num 0 |}
  /\ (forall o s,
        tokenCache (snd (perform host o s)) = tokenCache s
        \/ exists r j,
             network host (sent s) (token_request host) = Resolved r
             /\ ok r = true /\ json r = inr j
             /\ tokenCache (snd (perform host o s))
                = {| access_token := prop j "access_token";
                     expires_at := add (Num (clock host (S (reads s))))
                                     (mul (lifetime j) (Num 1000)) |})
  /\ (forall ops, well_formed (tokenCache (run host ops initial)))
  /\ (forall o a b,
        alike a b ->
        fst (perform host o a) = fst (perform host o b)
        /\ alike (snd (perform host o a)) (snd (perform host o b))).
Proof.
  split; [reflexivity|]. split; [|split].
  - intros o s. exact (perform_stores host o s).
  - intros ops. apply run_well_formed. now left.
  - intros o a b. apply perform_alike.
Qed.

(** ** The theorems at concrete inputs *)

Lemma cache_hit_witness :
  fst (getAccessToken Sample.good (Sample.warmed Sample.good)) = Return (VString "abc")
  /\ sent (snd (getAccessToken Sample.good (Sample.warmed Sample.good)))
     = sent (Sample.warmed Sample.good)
  /\ tokenCache (snd (getAccessToken Sample.good (Sample.warmed Sample.good)))
     = tokenCache (Sample.warmed Sample.good).
Proof.
  apply (cache_hit Sample.good (Sample.warmed Sample.good)); vm_compute; reflexivity.
Defined.

(** C1 as stated fails on a cached token that is not null but empty.  The
    token endpoint has granted the empty string for 3600 seconds; one
    second later the cache holds a non-null token, the clock reads less
    than expires_at minus 60 000, and the next call sends a second token
    request and changes the cache. *)
Lemma cache_miss_on_empty_token :
  Sample.warmed Sample.blank
  = {| tokenCache := {| access_token := VString ""; expires_at := Num 1700003601000 |};
       reads := 2;
       sent := [token_request Sample.blank];
       console := console (Sample.warmed Sample.blank) |}
  /\ access_token (tokenCache (Sample.warmed Sample.blank)) <> VNull
  /\ lt (Num (clock Sample.blank (reads (Sample.warmed Sample.blank))))
        (sub (expires_at (tokenCache (Sample.warmed Sample.blank))) (Num 60000)) = true
  /\ sent (snd (getAccessToken Sample.blank (Sample.warmed Sample.blank)))
     = [token_request Sample.blank; token_request Sample.blank]
  /\ sent (snd (getAccessToken Sample.blank (Sample.warmed Sample.blank)))
     <> sent (Sample.warmed Sample.blank)
  /\ tokenCache (snd (getAccessToken Sample.blank (Sample.warmed Sample.blank)))
     <> tokenCache (Sample.warmed Sample.blank).
Proof.
  repeat split; try (vm_compute; reflexivity); vm_compute; intros H; discriminate H.
Qed.

Lemma refresh_failure_keeps_cache_witness :
  fst (getAccessToken Sample.denied initial)
  = Throw (Error "Token request failed: 401 Unauthorized invalid_client")
  /\ tokenCache (snd (getAccessToken Sample.denied initial)) = tokenCache initial.
Proof.
  destruct (refresh_failure_keeps_cache Sample.denied initial) as (_ & Hcache & Hwhich).
  - vm_compute. reflexivity.
  - right. exists Sample.unauthorized. split; vm_compute; reflexivity.
  - split; [|exact Hcache].
    destruct Hwhich as [_ Hrefused]; [vm_compute; reflexivity|].
    apply (Hrefused Sample.unauthorized); vm_compute; reflexivity.
Defined.

Lemma refresh_success_witness :
  fst (getAccessToken Sample.good initial) = Return (VString "abc")
  /\ tokenCache (snd (getAccessToken Sample.good initial))
     = {| access_token := VString "abc";
          expires_at := Num (1700000001000 + 3600 * 1000) |}.
Proof.
  apply (refresh_success Sample.good initial
           (Sample.json_response 200 "OK" "" (Some "application/json")
              (VObject [("access_token", VString "abc");
                        ("expires_in", VNumber (Num 3600))]))
           (VObject [("access_token", VString "abc"); ("expires_in", VNumber (Num 3600))])
           3600);
    try (vm_compute; reflexivity).
  lia.
Defined.

(** C4 as stated fails on [expires_in: 0].  The body holds access_token
    and expires_in, the answer is 200, and the expiry stored is the clock
    reading plus 300 000 milliseconds, not plus 0. *)
Lemma zero_expires_in_gets_default :
  fresh (tokenCache initial) (clock Sample.zero (reads initial)) = false
  /\ network Sample.zero (sent initial) (token_request Sample.zero)
     = Sample.grant (VString "abc") (VNumber (Num 0))
  /\ fst (getAccessToken Sample.zero initial) = Return (VString "abc")
  /\ clock Sample.zero 1 = 1700000001000
  /\ expires_at (tokenCache (snd (getAccessToken Sample.zero initial)))
     = Num (1700000001000 + 300000)
  /\ expires_at (tokenCache (snd (getAccessToken Sample.zero initial)))
     <> Num (1700000001000 + 0 * 1000).
Proof.
  repeat split; try (vm_compute; reflexivity); vm_compute; intros H; discriminate H.
Qed.

Lemma default_lifetime_witness :
  tokenCache (Sample.warmed Sample.plain)
  = {| access_token := VString "abc"; expires_at := Num (1700000001000 + 300 * 1000) |}
  /\ (fst (getAccessToken Sample.plain (at_reading 240 (Sample.warmed Sample.plain)))
      = Return (VString "abc")
      /\ sent (snd (getAccessToken Sample.plain (at_reading 240 (Sample.warmed Sample.plain))))
         = [token_request Sample.plain])
  /\ sent (snd (getAccessToken Sample.plain (at_reading 241 (Sample.warmed Sample.plain))))
     = [token_request Sample.plain; token_request Sample.plain].
Proof.
  destruct (default_lifetime Sample.plain initial
              (Sample.json_response 200 "OK" "" (Some "application/json")
                 (VObject [("access_token", VString "abc")]))
              (VObject [("access_token", VString "abc")]))
    as (Hcache & Hlater);
    try (vm_compute; reflexivity).
  split; [exact Hcache|]. split.
  - apply (Hlater (at_reading 240 (Sample.warmed Sample.plain)));
      [reflexivity | reflexivity | vm_compute; reflexivity].
  - apply (Hlater (at_reading 241 (Sample.warmed Sample.plain)));
      [reflexivity | reflexivity | vm_compute; discriminate].
Defined.

(** C5 as stated fails 250 seconds after the fetch: the token endpoint
    has granted a token without expires_in when the clock read
    1700000001000; when it reads 1700000251000, within the 300 seconds,
    the token is not treated as valid: the call sends the token request
    again. *)
Lemma default_lifetime_ends_at_240_seconds :
  tokenCache (Sample.warmed Sample.plain)
  = {| access_token := VString "abc"; expires_at := Num (1700000001000 + 300000) |}
  /\ clock Sample.plain (reads (at_reading 251 (Sample.warmed Sample.plain)))
     = 1700000001000 + 250000
  /\ sent (at_reading 251 (Sample.warmed Sample.plain)) = [token_request Sample.plain]
  /\ sent (snd (getAccessToken Sample.plain (at_reading 251 (Sample.warmed Sample.plain))))
     = [token_request Sample.plain; token_request Sample.plain].
Proof. repeat split; vm_compute; reflexivity. Qed.

Lemma credentials_required_witness :
  (fst (getAccessToken Sample.unconfigured initial) = Throw missing_credentials
   /\ sent (snd (getAccessToken Sample.unconfigured initial)) = sent initial
   /\ tokenCache (snd (getAccessToken Sample.unconfigured initial)) = tokenCache initial)
  /\ (sent (snd (getAccessToken Sample.good initial)) = sent initial ++ [token_request Sample.good]
      /\ url (token_request Sample.good) = "https://id.carestack.ie/connect/token"
      /\ client_id Sample.good = "dentaltech_api_client").
Proof.
  split.
  - apply (credentials_required Sample.unconfigured initial); vm_compute; reflexivity.
  - destruct (credentials_required Sample.good initial) as [_ Hset];
      [vm_compute; reflexivity|].
    destruct Hset as (Hsent & Hurl & Hid); [vm_compute; reflexivity|].
    split; [exact Hsent|]. split; [apply Hurl | apply Hid]; vm_compute; reflexivity.
Defined.

Lemma find_slot_missing_parameter_witness :
  fst (api_find_slot Sample.good Sample.no_provider res0 initial)
  = Return {| statusCode := 400; res_headers := [];
              sent_body := Some (Json missing_params) |}
  /\ sent (snd (api_find_slot Sample.good Sample.no_provider res0 initial))
     = sent (Sample.warmed Sample.good).
Proof.
  apply (find_slot_missing_parameter Sample.good Sample.no_provider res0 initial
           (Sample.warmed Sample.good) (VString "abc"));
    vm_compute; reflexivity.
Defined.

(** C2 as stated fails on a request without [providerId]: the token is
    fetched before the query is looked at.  Without credentials in the
    environment the response is 500, not 400; with credentials the token
    request has been sent although a parameter is missing. *)
Lemma missing_parameter_checked_after_token :
  query Sample.no_provider "providerId" = VUndefined
  /\ all_present Sample.no_provider = false
  /\ fst (api_find_slot Sample.unconfigured Sample.no_provider res0 initial)
     = Return {| statusCode := 500; res_headers := [];
                 sent_body :=
                   Some (Json (VObject
                     [("error", VString "Proxy failure");
                      ("detail", VString "Error: Missing token credentials. Please set CS_CLIENT_ID, CS_CLIENT_SECRET, CS_USERNAME, CS_PASSWORD")])) |}
  /\ sent initial = []
  /\ sent (snd (api_find_slot Sample.good Sample.no_provider res0 initial))
     = [token_request Sample.good].
Proof. repeat split; vm_compute; reflexivity. Qed.



Lemma find_slot_token_failure_witness :
  fst (api_find_slot Sample.denied Sample.all_params res0 initial)
  = Return {| statusCode := 500; res_headers := [];
              sent_body :=
                Some (Json (VObject
                  [("error", VString "Proxy failure");
                   ("detail", VString "Error: Token request failed: 401 Unauthorized invalid_client")])) |}
  /\ sent (snd (api_find_slot Sample.denied Sample.all_params res0 initial))
     = sent (Sample.warmed Sample.denied)
  /\ (sent (Sample.warmed Sample.denied) = sent initial
      \/ sent (Sample.warmed Sample.denied) = sent initial ++ [token_request Sample.denied]).
Proof.
  apply (find_slot_token_failure Sample.denied Sample.all_params res0 initial
           (Sample.warmed Sample.denied) (token_request_failed Sample.unauthorized)).
  vm_compute. reflexivity.
Defined.

Lemma token_without_access_token_witness :
  fst (getAccessToken Sample.hollow initial) = Return VUndefined
  /\ tokenCache (snd (getAccessToken Sample.hollow initial))
     = {| access_token := VUndefined; expires_at := Num (1700000001000 + 300000) |}
  /\ sent (snd (getAccessToken Sample.hollow (Sample.warmed Sample.hollow)))
     = sent (Sample.warmed Sample.hollow) ++ [token_request Sample.hollow]
  /\ exists upstream,
       sent (snd (api_find_slot Sample.hollow Sample.all_params res0 initial))
       = sent initial ++ [token_request Sample.hollow; upstream]
       /\ headers upstream
          = [("Authorization", "Bearer undefined"); ("Accept", "application/json")].
Proof.
  assert (Hfalsy : truthy (prop (VObject []) "expires_in") = false) by reflexivity.
  destruct (fun Hstale Hcred Hnet Hok Hjson Hget =>
              token_without_access_token Sample.hollow initial
                (Sample.json_response 200 "OK" "{}" (Some "application/json") (VObject []))
                (VObject []) Hstale Hcred Hnet Hok Hjson Hget (or_introl Hfalsy))
    as (Hret & Htok & _ & Hexp & _ & Hnext & Hsent);
    try (vm_compute; reflexivity).
  split; [exact Hret|]. split.
  { specialize (Hexp eq_refl).
    destruct (tokenCache (snd (getAccessToken Sample.hollow initial))) as [tok exp].
    simpl in *. now subst. }
  split; [apply Hnext; reflexivity|].
  apply (Hsent Sample.all_params res0). vm_compute. reflexivity.
Defined.

(** C10 as stated fails on two answers without an access_token.  On the
    2xx body [null] the call throws a [TypeError] and stores nothing.  On
    the 2xx body [{ expires_in: -100 }] the call returns [undefined] and
    the expiry stored is 100 seconds before the clock reading, not a
    future time. *)
Lemma absent_token_can_fail_or_be_overdue :
  network Scenario.void (sent initial) (token_request Scenario.void)
  = Resolved Scenario.null_answer
  /\ ok Scenario.null_answer = true
  /\ json Scenario.null_answer = inr VNull
  /\ fst (getAccessToken Scenario.void initial)
     = Throw (mkError "TypeError" "Cannot read properties of null (reading 'expires_in')")
  /\ tokenCache (snd (getAccessToken Scenario.void initial)) = empty_cache
  /\ network Scenario.stale (sent initial) (token_request Scenario.stale)
     = Resolved Scenario.overdue
  /\ json Scenario.overdue = inr (VObject [("expires_in", VNumber (Num (-100)))])
  /\ fst (getAccessToken Scenario.stale initial) = Return VUndefined
  /\ clock Scenario.stale 1 = 1700000001000
  /\ expires_at (tokenCache (snd (getAccessToken Scenario.stale initial)))
     = Num (1700000001000 - 100000).
Proof. repeat split; vm_compute; reflexivity. Qed.

Lemma token_state_lifecycle_witness :
  well_formed
    (tokenCache (run Sample.hollow
                   [GetFindSlot Sample.all_params res0; GetApiToken res0] initial))
  /\ fst (perform Sample.denied (GetApiToken res0) initial)
     = fst (perform Sample.denied (GetApiToken res0)
              (caching {| access_token := VNull; expires_at := Num 1700000000000 |} initial)).
Proof.
  destruct (token_state_lifecycle Sample.denied) as (_ & _ & _ & Hsame).
  destruct (token_state_lifecycle Sample.hollow) as (_ & _ & Hformed & _).
  split; [apply Hformed|].
  apply Hsame. unfold alike. simpl. repeat split; auto. discriminate.
Defined.

(** ** More about [getAccessToken] *)

Section TokenCalls.
Context {engine : Engine} (host : Host).

(** What a call returns is what the cache holds when it returns. *)
Lemma returned_is_cached (s s1 : State) (token : value) :
  getAccessToken host s = (Return token, s1) ->
  access_token (tokenCache s1) = token.
Proof.
  intros Heq. pose proof (getAccessToken_run host s) as Hrun.
  rewrite Heq in Hrun. simpl in Hrun.
  inversion Hrun; subst; reflexivity.
Qed.

(** X1.  Whatever makes a call throw (missing credentials, a transport
    error, a status outside 200-299, a body that is not JSON, a JSON body
    that is [null]), the token cache is left as it was and at most the
    token request has been sent. *)
Theorem token_failure_is_atomic (s s1 : State) (e : error) :
  getAccessToken host s = (Throw e, s1) ->
  tokenCache s1 = tokenCache s
  /\ (sent s1 = sent s \/ sent s1 = sent s ++ [token_request host]).
Proof.
  intros Heq. split.
  - exact (throw_keeps_cache host s e s1 Heq).
  - pose proof (token_call_sends host s) as Hsent. now rewrite Heq in Hsent.
Qed.

(** X2.  A call never retries: it appends nothing to the requests sent, or
    the token request once.  On the cache-hit path it sends nothing; on
    the refresh path with the credentials configured it sends the token
    request exactly once, whatever the answer. *)
Theorem token_call_never_retries (s : State) :
  exists rs,
    sent (snd (getAccessToken host s)) = sent s ++ rs
    /\ (length rs <= 1)%nat
    /\ (fresh (tokenCache s) (clock host (reads s)) = true -> rs = [])
    /\ (fresh (tokenCache s) (clock host (reads s)) = false ->
        credentials_missing host = false -> rs = [token_request host]).
Proof.
  pose proof (getAccessToken_run host s) as Hrun.
  destruct (getAccessToken host s) as [res s']. simpl in *.
  inversion Hrun; subst; simpl;
    first [ exists []; rewrite app_nil_r; repeat split; simpl; auto; congruence
          | exists [token_request host]; repeat split; simpl; auto; congruence ].
Qed.

(** X3.  A cached token within 60 000 milliseconds of its expiry, the
    boundary included, or past it, is not used: with the credentials
    configured the token request is sent once, and a 2xx answer with a
    JSON body that is not null, whose expires_in is absent or a primitive
    value (not an array or an object, which [Number] converts through
    their [toString]), replaces both fields of the cache. *)
Theorem expiring_token_is_refreshed (s : State) (e : Z) (r : response) (j : value) :
  expires_at (tokenCache s) = Num e ->
  e - 60000 <= clock host (reads s) ->
  credentials_missing host = false ->
  network host (sent s) (token_request host) = Resolved r ->
  ok r = true ->
  json r = inr j ->
  j <> VNull -> j <> VUndefined ->
  primitive (prop j "expires_in") = true ->
  fst (getAccessToken host s) = Return (prop j "access_token")
  /\ sent (snd (getAccessToken host s)) = sent s ++ [token_request host]
  /\ tokenCache (snd (getAccessToken host s))
     = {| access_token := prop j "access_token";
          expires_at := add (Num (clock host (S (reads s))))
                          (mul (lifetime j) (Num 1000)) |}.
Proof.
  intros Hexp Hlate Hcred Hnet Hok Hjson Hnull Hundef _.
  assert (Hstale : fresh (tokenCache s) (clock host (reads s)) = false).
  { unfold fresh. rewrite Hexp. simpl.
    replace (clock host (reads s) <? e - 60000) with false
      by (symmetry; apply Z.ltb_ge; lia).
    apply andb_false_r. }
  assert (Hget : exists v, get j "expires_in" = inr v).
  { destruct j; simpl; eauto; congruence. }
  rewrite (token_run_inv host s _ _
             (run_stored host s r j Hstale Hcred Hnet Hok Hjson Hget)).
  simpl. auto.
Qed.

(** X4.  After a successful fetch with a numeric expires_in [n] other
    than zero, the cached token passes the test of line 36 at the time
    [now] exactly when it is truthy and [now] is less than the fetch time
    plus [n] seconds minus the 60 second margin.  So a token granted for
    60 seconds or less is never served from the cache at or after the
    time it was fetched. *)
Theorem validity_window (s : State) (r : response) (j : value) (n : Z) :
  fresh (tokenCache s) (clock host (reads s)) = false ->
  credentials_missing host = false ->
  network host (sent s) (token_request host) = Resolved r ->
  ok r = true ->
  json r = inr j ->
  get j "expires_in" = inr (VNumber (Num n)) ->
  n <> 0 ->
  (forall now : Z,
     fresh (tokenCache (snd (getAccessToken host s))) now
     = truthy (prop j "access_token")
       && (now <? clock host (S (reads s)) + n * 1000 - 60000))
  /\ (n <= 60 ->
      forall now : Z,
        clock host (S (reads s)) <= now ->
        fresh (tokenCache (snd (getAccessToken host s))) now = false).
Proof.
  intros Hstale Hcred Hnet Hok Hjson Hget Hn.
  rewrite (token_run_inv host s _ _
             (run_stored host s r j Hstale Hcred Hnet Hok Hjson
                (ex_intro _ _ Hget))).
  simpl.
  assert (Hlife : lifetime j = Num n).
  { unfold lifetime, prop. rewrite Hget. unfold or_else. simpl.
    apply Z.eqb_neq in Hn. now rewrite Hn. }
  assert (Hwin : forall now : Z,
             fresh (written j (clock host (S (reads s)))) now
             = truthy (prop j "access_token")
               && (now <? clock host (S (reads s)) + n * 1000 - 60000)).
  { intros now. unfold fresh, written. simpl. now rewrite Hlife. }
  split; [exact Hwin|].
  intros Hshort now Hlater. rewrite Hwin.
  replace (now <? clock host (S (reads s)) + n * 1000 - 60000) with false
    by (symmetry; apply Z.ltb_ge; lia).
  apply andb_false_r.
Qed.


(** X6.  A 2xx answer whose JSON body is [null] makes the call throw a
    [TypeError] (the read of [json.expires_in]); the token request has
    been sent and the cache is left as it was. *)
Theorem null_body_is_a_type_error (s : State) (r : response) :
  fresh (tokenCache s) (clock host (reads s)) = false ->
  credentials_missing host = false ->
  network host (sent s) (token_request host) = Resolved r ->
  ok r = true ->
  json r = inr VNull ->
  (exists e, fst (getAccessToken host s) = Throw e /\ err_name e = "TypeError")
  /\ sent (snd (getAccessToken host s)) = sent s ++ [token_request host]
  /\ tokenCache (snd (getAccessToken host s)) = tokenCache s.
Proof.
  intros Hstale Hcred Hnet Hok Hjson.
  rewrite (token_run_inv host s _ _
             (run_no_object host s r VNull _ Hstale Hcred Hnet Hok Hjson eq_refl)).
  simpl. split; [eexists; split; reflexivity | split; reflexivity].
Qed.

(** X7.  A failure is not remembered: after a call that threw, a call
    that again finds the cache unusable goes to the network again (with
    the credentials configured), sending the token request once more. *)
Theorem failure_is_retried_by_next_call (s s1 : State) (e : error) :
  getAccessToken host s = (Throw e, s1) ->
  fresh (tokenCache s) (clock host (reads s1)) = false ->
  credentials_missing host = false ->
  sent s1 = sent s ++ [token_request host]
  /\ sent (snd (getAccessToken host s1))
     = sent s ++ [token_request host; token_request host].
Proof.
  intros Heq Hstale Hcred.
  assert (Hcache : tokenCache s1 = tokenCache s)
    by exact (throw_keeps_cache host s e s1 Heq).
  assert (Hfirst : sent s1 = sent s ++ [token_request host]).
  { pose proof (getAccessToken_run host s) as Hrun.
    rewrite Heq in Hrun. simpl in Hrun.
    inversion Hrun; subst; simpl; try reflexivity; congruence. }
  split; [exact Hfirst|].
  rewrite <- Hcache in Hstale.
  pose proof (getAccessToken_run host s1) as Hrun.
  destruct (getAccessToken host s1) as [res s2]. simpl in *.
  inversion Hrun; subst; simpl; try congruence;
    rewrite Hfirst, <- app_assoc; reflexivity.
Qed.

(** X8.  A refresh followed by a call within the validity window: after
    a successful fetch of a truthy token with a numeric expires_in [n]
    other than zero, if the clock next reads less than the fetch time plus
    [n] seconds minus 60 seconds, the next call returns the same token,
    sends nothing and leaves the cache as the fetch wrote it. *)
Theorem refresh_then_hit (s : State) (r : response) (j : value) (n : Z) :
  fresh (tokenCache s) (clock host (reads s)) = false ->
  credentials_missing host = false ->
  network host (sent s) (token_request host) = Resolved r ->
  ok r = true ->
  json r = inr j ->
  get j "expires_in" = inr (VNumber (Num n)) ->
  n <> 0 ->
  truthy (prop j "access_token") = true ->
  clock host (S (S (reads s))) < clock host (S (reads s)) + n * 1000 - 60000 ->
  fst (getAccessToken host (snd (getAccessToken host s))) = fst (getAccessToken host s)
  /\ sent (snd (getAccessToken host (snd (getAccessToken host s))))
     = sent s ++ [token_request host]
  /\ tokenCache (snd (getAccessToken host (snd (getAccessToken host s))))
     = tokenCache (snd (getAccessToken host s)).
Proof.
  intros Hstale Hcred Hnet Hok Hjson Hget Hn Htok Hsoon.
  rewrite (token_run_inv host s _ _
             (run_stored host s r j Hstale Hcred Hnet Hok Hjson
                (ex_intro _ _ Hget))).
  simpl.
  set (s1 := caching (written j (clock host (S (reads s)))) (tick (answered host r s))).
  assert (Hlife : lifetime j = Num n).
  { unfold lifetime, prop. rewrite Hget. unfold or_else. simpl.
    apply Z.eqb_neq in Hn. now rewrite Hn. }
  assert (Hfresh : fresh (tokenCache s1) (clock host (reads s1)) = true).
  { unfold s1, fresh, written. simpl. rewrite Htok, Hlife. simpl.
    apply Z.ltb_lt. exact Hsoon. }
  rewrite (token_run_inv host s1 _ _ (run_hit host s1 Hfresh)).
  simpl. auto.
Qed.

End TokenCalls.

(** ** What the encodings keep out of a request *)

Lemma count_char_append (c : ascii) (a b : string) :
  count_char c (a +:+ b) = (count_char c a + count_char c b)%nat.
Proof.
  induction a as [|x a IH]; simpl; [reflexivity|].
  rewrite IH. lia.
Qed.

Lemma string_append_assoc (a b c : string) :
  (a +:+ b) +:+ c = a +:+ (b +:+ c).
Proof.
  induction a as [|x a IH]; [reflexivity|].
  change (String x ((a +:+ b) +:+ c) = String x (a +:+ (b +:+ c))).
  now rewrite IH.
Qed.

(** When no character is encoded into something that holds [c], an
    encoded string does not hold [c]. *)
Lemma encode_with_avoids (keep : ascii -> bool) (special : ascii -> option string)
    (c : ascii) :
  (forall a, count_char c (encoded_char keep special a) = 0%nat) ->
  forall s, count_char c (encode_with keep special s) = 0%nat.
Proof.
  intros Hchar s. induction s as [|a s IH]; simpl; [reflexivity|].
  fold (encoded_char keep special a).
  now rewrite count_char_append, Hchar, IH.
Qed.

Ltac each_character :=
  let a := fresh "a" in
  intros a; destruct a as [[] [] [] [] [] [] [] []]; vm_compute; reflexivity.

(** [form_encode] writes neither [&] nor [=]. *)
Lemma form_encode_avoids (c : ascii) (s : string) :
  c = "&"%char \/ c = "="%char -> count_char c (form_encode s) = 0%nat.
Proof.
  intros [-> | ->]; apply encode_with_avoids; each_character.
Qed.

(** [encodeURIComponent] writes none of [& = ? # /] nor a space. *)
Lemma encodeURIComponent_avoids (c : ascii) (s : string) :
  In c ["&"; "="; "?"; "#"; "/"; " "]%char ->
  count_char c (encodeURIComponent s) = 0%nat.
Proof.
  simpl. intros [<- | [<- | [<- | [<- | [<- | [<- | []]]]]]];
    apply encode_with_avoids; each_character.
Qed.

Section Requests.
Context {engine : Engine} (host : Host).

(** X9.  The body of the token request is the five fields of lines 51-55
    in that order, each value form-encoded, whatever the credentials: it
    holds exactly four [&] and five [=], so a secret, a user name or a
    password with [&] or [=] in it cannot add or change a field. *)
Theorem token_body_has_five_fields :
  exists b,
    body (token_request host) = Some b
    /\ b = "grant_type=password&client_id=" +:+ form_encode (client_id host)
           +:+ "&client_secret=" +:+ form_encode (client_secret host)
           +:+ "&username=" +:+ form_encode (username host)
           +:+ "&password=" +:+ form_encode (password host)
    /\ count_char "&" b = 4%nat
    /\ count_char "=" b = 5%nat.
Proof.
  eexists. split; [reflexivity|].
  assert (Hshape :
    params_toString
      (params_set "password" (password host)
         (params_set "username" (username host)
            (params_set "client_secret" (client_secret host)
               (params_set "client_id" (client_id host)
                  (params_set "grant_type" "password" [])))))
    = "grant_type=password&client_id=" +:+ form_encode (client_id host)
      +:+ "&client_secret=" +:+ form_encode (client_secret host)
      +:+ "&username=" +:+ form_encode (username host)
      +:+ "&password=" +:+ form_encode (password host)).
  { generalize (client_id host), (client_secret host), (username host), (password host).
    intros a b c d.
    change (params_set "password" d
              (params_set "username" c
                 (params_set "client_secret" b
                    (params_set "client_id" a (params_set "grant_type" "password" [])))))
      with [("grant_type", "password"); ("client_id", a); ("client_secret", b);
            ("username", c); ("password", d)].
    unfold params_toString, join_with. simpl.
    change (form_encode "grant_type") with "grant_type".
    change (form_encode "password") with "password".
    change (form_encode "client_id") with "client_id".
    change (form_encode "client_secret") with "client_secret".
    change (form_encode "username") with "username".
    rewrite !string_append_assoc. reflexivity. }
  split; [exact Hshape|].
  rewrite Hshape.
  split; rewrite !count_char_append, !form_encode_avoids by auto; reflexivity.
Qed.

(** X10.  The URL sent upstream is the fixed base and path followed by the
    four parameters of line 100 in that order, each value passed through
    [encodeURIComponent]: whatever the query values, it holds one [?],
    three [&], four [=], no [#] and no space, so a value cannot add or
    change a parameter, or cut the query short. *)
Theorem upstream_url_has_four_parameters (token : value) (q : gmap string value) :
  url (upstream_request token q)
  = "https://dentaltech.carestack.ie/scheduler/api/v1.0/appointments/find-slot?fromDate="
    +:+ encodeURIComponent (to_string (query q "fromDate"))
    +:+ "&locationId=" +:+ encodeURIComponent (to_string (query q "locationId"))
    +:+ "&providerId=" +:+ encodeURIComponent (to_string (query q "providerId"))
    +:+ "&productionTypeId=" +:+ encodeURIComponent (to_string (query q "productionTypeId"))
  /\ count_char "?" (url (upstream_request token q)) = 1%nat
  /\ count_char "&" (url (upstream_request token q)) = 3%nat
  /\ count_char "=" (url (upstream_request token q)) = 4%nat
  /\ count_char "#" (url (upstream_request token q)) = 0%nat
  /\ count_char " " (url (upstream_request token q)) = 0%nat.
Proof.
  assert (Hshape :
    url (upstream_request token q)
    = "https://dentaltech.carestack.ie/scheduler/api/v1.0/appointments/find-slot?fromDate="
      +:+ encodeURIComponent (to_string (query q "fromDate"))
      +:+ "&locationId=" +:+ encodeURIComponent (to_string (query q "locationId"))
      +:+ "&providerId=" +:+ encodeURIComponent (to_string (query q "providerId"))
      +:+ "&productionTypeId="
      +:+ encodeURIComponent (to_string (query q "productionTypeId"))).
  { unfold upstream_request, find_slot_request. cbn [url].
    generalize (encodeURIComponent (to_string (query q "fromDate"))),
      (encodeURIComponent (to_string (query q "locationId"))),
      (encodeURIComponent (to_string (query q "providerId"))),
      (encodeURIComponent (to_string (query q "productionTypeId"))).
    intros a b c d. reflexivity. }
  split; [exact Hshape|].
  rewrite Hshape.
  repeat split;
    rewrite !count_char_append, !encodeURIComponent_avoids by (simpl; tauto);
    reflexivity.
Qed.

End Requests.

Example tricky_token_body :
  body (token_request Scenario.tricky)
  = Some "grant_type=password&client_id=dentaltech_api_client&client_secret=a%26b%3Dc&username=u+ser&password=p%26grant_type%3Dx".
Proof. vm_compute. reflexivity. Qed.

(** ** More about the handlers *)

Section Handlers.
Context {engine : Engine} (host : Host).

(** X11.  The [/api/token] handler never throws and leaves the state that
    [getAccessToken] leaves.  It answers with the status it was given and
    the access_token and expires_at that the cache holds after the call,
    or, when the call threw, with status 500 and the error as a string,
    the cache being as before. *)
Theorem api_token_reports_the_cache (res : ExpressRes) (s : State) :
  exists reply,
    api_token host res s = (Return reply, snd (getAccessToken host s))
    /\ ((exists token, fst (getAccessToken host s) = Return token)
        /\ statusCode reply = statusCode res
        /\ sent_body reply
           = Some (Json (VObject
               [("access_token", access_token (tokenCache (snd (getAccessToken host s))));
                ("expires_at", VNumber (expires_at (tokenCache (snd (getAccessToken host s)))))]))
        \/ (exists e, fst (getAccessToken host s) = Throw e
                      /\ sent_body reply
                         = Some (Json (VObject [("error", VString (String_of_error e))])))
           /\ statusCode reply = 500
           /\ tokenCache (snd (getAccessToken host s)) = tokenCache s).
Proof.
  unfold api_token, try_catch, mbind, Async_bind.
  destruct (getAccessToken host s) as [[token|e] s1] eqn:Heq; simpl.
  - eexists. split; [reflexivity|]. left.
    rewrite (returned_is_cached host s s1 token Heq).
    split; [eauto | split; reflexivity].
  - eexists. split; [reflexivity|]. right.
    split; [eauto|]. split; [reflexivity|].
    exact (throw_keeps_cache host s e s1 Heq).
Qed.

(** X12.  With a cached token that passes the test of line 36 and is a
    primitive value (a string, as a token endpoint grants; not an array
    or an object, which a template string converts through their
    [toString]), and the four parameters present, the find-slot handler
    sends one request and no token request: the upstream request,
    carrying the cached token; a string token [t] goes out as
    [Authorization: Bearer t].  The cache is left as it was. *)
Theorem find_slot_reuses_cached_token (q : gmap string value) (res : ExpressRes)
    (s : State) :
  fresh (tokenCache s) (clock host (reads s)) = true ->
  primitive (access_token (tokenCache s)) = true ->
  all_present q = true ->
  sent (snd (api_find_slot host q res s))
  = sent s ++ [upstream_request (access_token (tokenCache s)) q]
  /\ tokenCache (snd (api_find_slot host q res s)) = tokenCache s
  /\ forall t, access_token (tokenCache s) = VString t ->
       request_header (upstream_request (access_token (tokenCache s)) q) "Authorization"
       = Some ("Bearer " +:+ t).
Proof.
  intros Hfresh _ Hq.
  pose proof (token_run_inv host s _ _ (run_hit host s Hfresh)) as Htoken.
  split; [|split].
  - now rewrite (find_slot_sends host q res s _ _ Htoken Hq).
  - rewrite (find_slot_cache host q res s), Htoken. reflexivity.
  - intros t ->. reflexivity.
Qed.


(** What the handler does once [getAccessToken] has ended with the state
    [s1]. *)
Lemma find_slot_outcome (q : gmap string value) (res : ExpressRes) (s : State) :
  exists reply rs,
    fst (api_find_slot host q res s) = Return reply
    /\ ((exists v, sent_body reply = Some (Json v)
                   /\ (statusCode reply = 400 \/ statusCode reply = 500))
        \/ (exists token up body,
              network host (sent (snd (getAccessToken host s))) (upstream_request token q)
              = Resolved up
              /\ text up = inr body
              /\ sent_body reply = Some (Text body)
              /\ statusCode reply = status up))
    /\ sent (snd (api_find_slot host q res s)) = sent (snd (getAccessToken host s)) ++ rs
    /\ (length rs <= 1)%nat.
Proof.
  destruct (getAccessToken host s) as [[token|e] s1] eqn:Htoken.
  2:{ rewrite (find_slot_token_thrown host q res s s1 e Htoken).
      eexists _, []. split; [reflexivity|]. split.
      - left. eexists. split; [reflexivity | now right].
      - simpl. rewrite app_nil_r. split; [reflexivity | lia]. }
  destruct (all_present q) eqn:Hq.
  2:{ rewrite (find_slot_bad_request host q res s s1 token Htoken Hq).
      eexists _, []. split; [reflexivity|]. split.
      - left. eexists. split; [reflexivity | now left].
      - simpl. rewrite app_nil_r. split; [reflexivity | lia]. }
  destruct (network host (sent s1) (upstream_request token q)) as [up|e] eqn:Hnet.
  2:{ rewrite (find_slot_unreachable host q res s s1 token e Htoken Hq Hnet).
      eexists _, [_]. split; [reflexivity|]. split.
      - left. eexists. split; [reflexivity | now right].
      - simpl. split; [reflexivity | lia]. }
  destruct (text up) as [e|body] eqn:Hbody.
  - rewrite (find_slot_body_lost host q res s s1 token up e Htoken Hq Hnet Hbody).
    eexists _, [_]. split; [reflexivity|]. split.
    + left. eexists. split; [reflexivity | now right].
    + simpl. split; [reflexivity | lia].
  - rewrite (find_slot_relayed host q res s s1 token up body Htoken Hq Hnet Hbody).
    eexists _, [_]. split; [reflexivity|]. split.
    + right. exists token, up, body. simpl. repeat split; assumption.
    + simpl. split; [reflexivity | lia].
Qed.

(** X14.  The find-slot handler never throws and always sends something:
    a JSON payload with status 400 or 500, or the body text of the
    response the network gave to its upstream request, under the status
    of that response.  It sends at most two requests, and keeps the ones
    sent before. *)
Theorem find_slot_always_responds (q : gmap string value) (res : ExpressRes) (s : State) :
  exists reply rs,
    fst (api_find_slot host q res s) = Return reply
    /\ ((exists v, sent_body reply = Some (Json v)
                   /\ (statusCode reply = 400 \/ statusCode reply = 500))
        \/ (exists token up body,
              network host (sent (snd (getAccessToken host s))) (upstream_request token q)
              = Resolved up
              /\ text up = inr body
              /\ sent_body reply = Some (Text body)
              /\ statusCode reply = status up))
    /\ sent (snd (api_find_slot host q res s)) = sent s ++ rs
    /\ (length rs <= 2)%nat.
Proof.
  destruct (find_slot_outcome q res s) as (reply & rs & Hreply & Hshape & Hsent & Hlen).
  destruct (token_call_sends host s) as [Hfirst | Hfirst]; rewrite Hfirst in Hsent.
  - exists reply, rs. repeat split; auto; lia.
  - exists reply, ([token_request host] ++ rs).
    split; [exact Hreply|]. split; [exact Hshape|]. split.
    + now rewrite app_assoc.
    + simpl. lia.
Qed.

(** X15.  Every find-slot request that obtains a token writes that token
    to the console (line 91), before the query is looked at and whatever
    the request then comes to. *)
Theorem find_slot_logs_the_token (q : gmap string value) (res : ExpressRes)
    (s s1 : State) (token : value) :
  getAccessToken host s = (Return token, s1) ->
  exists before after,
    console (snd (api_find_slot host q res s))
    = console s1 ++ LogToken token :: after
    /\ console s1 = console s ++ before.
Proof.
  intros Htoken.
  assert (Hfirst : exists before, console s1 = console s ++ before).
  { pose proof (getAccessToken_run host s) as Hrun.
    rewrite Htoken in Hrun. simpl in Hrun.
    inversion Hrun; subst; simpl.
    - exists []. now rewrite app_nil_r.
    - eexists. reflexivity. }
  destruct Hfirst as [before Hbefore].
  assert (Hlog : exists after,
             console (snd (api_find_slot host q res s))
             = console s1 ++ LogToken token :: after).
  { destruct (all_present q) eqn:Hq.
    2:{ rewrite (find_slot_bad_request host q res s s1 token Htoken Hq).
        exists []. reflexivity. }
    destruct (network host (sent s1) (upstream_request token q)) as [up|e] eqn:Hnet.
    2:{ rewrite (find_slot_unreachable host q res s s1 token e Htoken Hq Hnet).
        eexists. simpl. rewrite <- app_assoc. reflexivity. }
    destruct (text up) as [e|body] eqn:Hbody.
    - rewrite (find_slot_body_lost host q res s s1 token up e Htoken Hq Hnet Hbody).
      eexists. simpl. rewrite <- app_assoc. reflexivity.
    - rewrite (find_slot_relayed host q res s s1 token up body Htoken Hq Hnet Hbody).
      exists []. reflexivity. }
  destruct Hlog as [after Hafter].
  exists before, after. split; assumption.
Qed.

End Handlers.

Section HealthCheck.
Context (host : Host) (toISOString : Z -> string).

(** The [/health] handler answers with the status it was given and
    [{ ok: true, time }] for the time it read; it sends nothing and
    leaves the token cache alone. *)
Lemma health_is_harmless (res : ExpressRes) (s : State) :
  health host toISOString res s
  = (Return (res_json res
               (VObject [("ok", VBool true);
                         ("time", VString (toISOString (clock host (reads s))))])),
     tick s).
Proof. reflexivity. Qed.

End HealthCheck.

(** ** The further theorems at concrete inputs *)

Lemma token_failure_is_atomic_witness :
  tokenCache (Sample.warmed Sample.denied) = tokenCache initial
  /\ (sent (Sample.warmed Sample.denied) = sent initial
      \/ sent (Sample.warmed Sample.denied) = sent initial ++ [token_request Sample.denied]).
Proof.
  apply (token_failure_is_atomic Sample.denied initial (Sample.warmed Sample.denied)
           (token_request_failed Sample.unauthorized)).
  vm_compute. reflexivity.
Defined.

Lemma expiring_token_is_refreshed_witness :
  fst (getAccessToken Sample.good Scenario.expiring) = Return (VString "abc")
  /\ sent (snd (getAccessToken Sample.good Scenario.expiring))
     = [token_request Sample.good]
  /\ tokenCache (snd (getAccessToken Sample.good Scenario.expiring))
     = {| access_token := VString "abc"; expires_at := Num 1700003601000 |}.
Proof.
  apply (expiring_token_is_refreshed Sample.good Scenario.expiring 1700000050000
           (Sample.json_response 200 "OK" "" (Some "application/json")
              (VObject [("access_token", VString "abc");
                        ("expires_in", VNumber (Num 3600))]))
           (VObject [("access_token", VString "abc"); ("expires_in", VNumber (Num 3600))]));
    try (vm_compute; reflexivity); try discriminate.
Defined.

Lemma validity_window_witness :
  fresh (tokenCache (snd (getAccessToken Scenario.brief initial))) 1700000001000 = false
  /\ fresh (tokenCache (snd (getAccessToken Scenario.brief initial))) 1699999970999
     = true && (1699999970999 <? 1700000001000 + 30 * 1000 - 60000).
Proof.
  destruct (validity_window Scenario.brief initial
              (Sample.json_response 200 "OK" "" (Some "application/json")
                 (VObject [("access_token", VString "abc");
                           ("expires_in", VNumber (Num 30))]))
              (VObject [("access_token", VString "abc"); ("expires_in", VNumber (Num 30))])
              30)
    as (Hwindow & Hnever);
    try (vm_compute; reflexivity); try lia.
  split.
  - apply Hnever; [lia | vm_compute; discriminate].
  - apply Hwindow.
Defined.


Lemma null_body_is_a_type_error_witness :
  (exists e, fst (getAccessToken Scenario.void initial) = Throw e
             /\ err_name e = "TypeError")
  /\ sent (snd (getAccessToken Scenario.void initial))
     = sent initial ++ [token_request Scenario.void]
  /\ tokenCache (snd (getAccessToken Scenario.void initial)) = tokenCache initial.
Proof.
  apply (null_body_is_a_type_error Scenario.void initial Scenario.null_answer);
    vm_compute; reflexivity.
Defined.

Lemma failure_is_retried_by_next_call_witness :
  sent (Sample.warmed Sample.denied) = sent initial ++ [token_request Sample.denied]
  /\ sent (snd (getAccessToken Sample.denied (Sample.warmed Sample.denied)))
     = sent initial ++ [token_request Sample.denied; token_request Sample.denied].
Proof.
  apply (failure_is_retried_by_next_call Sample.denied initial (Sample.warmed Sample.denied)
           (token_request_failed Sample.unauthorized));
    vm_compute; reflexivity.
Defined.

Lemma refresh_then_hit_witness :
  fst (getAccessToken Sample.good (snd (getAccessToken Sample.good initial)))
  = fst (getAccessToken Sample.good initial)
  /\ sent (snd (getAccessToken Sample.good (snd (getAccessToken Sample.good initial))))
     = sent initial ++ [token_request Sample.good]
  /\ tokenCache (snd (getAccessToken Sample.good (snd (getAccessToken Sample.good initial))))
     = tokenCache (snd (getAccessToken Sample.good initial)).
Proof.
  apply (refresh_then_hit Sample.good initial
           (Sample.json_response 200 "OK" "" (Some "application/json")
              (VObject [("access_token", VString "abc");
                        ("expires_in", VNumber (Num 3600))]))
           (VObject [("access_token", VString "abc"); ("expires_in", VNumber (Num 3600))])
           3600);
    try (vm_compute; reflexivity); try lia.
Defined.

Lemma find_slot_reuses_cached_token_witness :
  sent (snd (api_find_slot Sample.good Sample.all_params res0 (Sample.warmed Sample.good)))
  = sent (Sample.warmed Sample.good)
    ++ [upstream_request (VString "abc") Sample.all_params]
  /\ request_header (upstream_request (VString "abc") Sample.all_params) "Authorization"
     = Some "Bearer abc".
Proof.
  destruct (find_slot_reuses_cached_token Sample.good Sample.all_params res0
              (Sample.warmed Sample.good))
    as (Hsent & _ & Hauth);
    try (vm_compute; reflexivity).
  split; [exact Hsent | apply (Hauth "abc"); vm_compute; reflexivity].
Defined.


Lemma find_slot_logs_the_token_witness :
  exists before after,
    console (snd (api_find_slot Sample.good Sample.no_provider res0 initial))
    = console (Sample.warmed Sample.good) ++ LogToken (VString "abc") :: after
    /\ console (Sample.warmed Sample.good) = console initial ++ before.
Proof.
  apply (find_slot_logs_the_token Sample.good Sample.no_provider res0 initial
           (Sample.warmed Sample.good) (VString "abc")).
  vm_compute. reflexivity.
Defined.
